(** * sharebnb-backend: the [User] model

    A shallow embedding of the [User] class (models/user.js: [authenticate],
    [register], [getAll], [get], [update], [remove]) over an explicit model
    of the PostgreSQL store it talks to through [db.query], followed by the
    properties of the user-identity module.

    - JavaScript objects (result rows, the [data] argument of [update]) are
      association lists in insertion order.
    - [async] methods are state-passing computations over a [world]: the
      tables plus the log of the statements issued so far.  A [throw] keeps
      the world reached so far.
    - [bcrypt] is an external library: its two functions and the configured
      work factor are the variables of a section; the salt [bcrypt.hash]
      draws is an explicit argument. *)

From Stdlib Require Import List ZArith String Ascii Bool Lia.
From Stdlib Require Import Sorted Permutation DecimalString.
From Stdlib Require Import DecimalPos DecimalZ.
Import ListNotations.

Local Open Scope string_scope.
Local Open Scope list_scope.
Local Open Scope Z_scope.

(** ** JavaScript values and objects *)

#[warnings="-register-all"]
Inductive value : Type :=
| VUndefined
| VNum (n : Z)
| VStr (s : string)
| VRows (rs : list (list (string * value))).

(** An object: its own properties, in insertion order. *)
Definition obj : Type := list (string * value).

Section Assoc.
Context {V : Type}.

(** [o[k]], [None] standing for a missing property. *)
Fixpoint obj_get (k : string) (o : list (string * V)) : option V :=
  match o with
  | [] => None
  | (k', v) :: o' => if String.eqb k k' then Some v else obj_get k o'
  end.

(** [o[k] = v]: an existing property keeps its position, a new one goes
    last. *)
Fixpoint obj_set (k : string) (v : V) (o : list (string * V))
  : list (string * V) :=
  match o with
  | [] => [(k, v)]
  | (k', v') :: o' =>
      if String.eqb k k' then (k', v) :: o' else (k', v') :: obj_set k v o'
  end.

(** [delete o[k]]. *)
Definition obj_delete (k : string) (o : list (string * V))
  : list (string * V) :=
  filter (fun kv => negb (String.eqb k (fst kv))) o.

Definition obj_keys (o : list (string * V)) : list string := map fst o.
End Assoc.

(** Property read as JavaScript evaluates it: a missing key is [undefined]. *)
Definition js_get (k : string) (o : obj) : value :=
  match obj_get k o with
  | Some v => v
  | None => VUndefined
  end.

(** Truthiness of a string, as in [if (data.password)]: only the empty string
    is falsy. *)
Definition js_truthy (s : string) : bool := negb (String.eqb s "").

(** The text of a number inside a template literal. *)
Definition string_of_Z (z : Z) : string := NilZero.string_of_int (Z.to_int z).

(** ** Errors and the computation type *)

(** The error classes of expressError.js that this module raises, the
    builder's validation failure, and any unclassified storage failure. *)
Inductive error : Type :=
| UnauthorizedError (message : string)
| BadRequestError (message : string)
| NotFoundError (message : string)
| ValidationError
| StorageFailure.

Inductive outcome (A : Type) : Type :=
| Ok (a : A)
| Throw (e : error).
Arguments Ok {A} a.
Arguments Throw {A} e.

(** ** The relational store *)

(** Modelled from the spec: the schema file is not part of the sources; the
    columns are those the statements of the module name.  [id] is numeric,
    the other columns of [users] are text. *)
Record user_row : Type := mkUser {
  u_id : Z;
  u_username : string;
  u_password : string;
  u_first_name : string;
  u_last_name : string;
  u_email : string
}.

Record listing_row : Type := mkListing {
  l_id : Z;
  l_owner_id : Z;
  l_name : value;
  l_description : value;
  l_price : value;
  l_street : value;
  l_city : value;
  l_state : value;
  l_zip : value;
  l_genre : value
}.

Record booking_row : Type := mkBooking {
  b_id : Z;
  b_owner_id : Z;
  b_renter_id : Z;
  b_listing_id : Z;
  b_created_at : value
}.

Record conversation_row : Type := mkConversation {
  c_id : Z;
  c_renter_id : Z;
  c_owner_id : Z;
  c_listing_id : Z
}.

Record tables : Type := mkTables {
  users : list user_row;
  users_id_seq : Z;          (* next value of the serial [id] *)
  listings : list listing_row;
  bookings : list booking_row;
  conversations : list conversation_row
}.

(** *** Output column labels *)

(** An identifier of a select list.  PostgreSQL folds an identifier written
    without double quotes to lower case; a quoted one is kept as written. *)
Inductive ident : Type :=
| Quoted (s : string)
| Bare (s : string).

Definition ascii_lower (c : ascii) : ascii :=
  let n := nat_of_ascii c in
  if (Nat.leb 65 n && Nat.leb n 90)%bool then ascii_of_nat (n + 32) else c.

Fixpoint pg_fold (s : string) : string :=
  match s with
  | EmptyString => EmptyString
  | String c s' => String (ascii_lower c) (pg_fold s')
  end.

Definition label (i : ident) : string :=
  match i with
  | Quoted s => s
  | Bare s => pg_fold s
  end.

(** One entry of a select or RETURNING list: [column AS alias]; a column
    selected without alias is labelled by its own name. *)
Definition select_list : Type := list (string * ident).

Definition col (c : string) : string * ident := (c, Bare c).
Definition col_as (c : string) (a : ident) : string * ident := (c, a).

Definition user_col (c : string) (r : user_row) : option value :=
  if String.eqb c "id" then Some (VNum (u_id r))
  else if String.eqb c "username" then Some (VStr (u_username r))
  else if String.eqb c "password" then Some (VStr (u_password r))
  else if String.eqb c "first_name" then Some (VStr (u_first_name r))
  else if String.eqb c "last_name" then Some (VStr (u_last_name r))
  else if String.eqb c "email" then Some (VStr (u_email r))
  else None.

Definition listing_col (c : string) (r : listing_row) : option value :=
  if String.eqb c "id" then Some (VNum (l_id r))
  else if String.eqb c "owner_id" then Some (VNum (l_owner_id r))
  else if String.eqb c "name" then Some (l_name r)
  else if String.eqb c "description" then Some (l_description r)
  else if String.eqb c "price" then Some (l_price r)
  else if String.eqb c "street" then Some (l_street r)
  else if String.eqb c "city" then Some (l_city r)
  else if String.eqb c "state" then Some (l_state r)
  else if String.eqb c "zip" then Some (l_zip r)
  else if String.eqb c "genre" then Some (l_genre r)
  else None.

Definition booking_col (c : string) (r : booking_row) : option value :=
  if String.eqb c "id" then Some (VNum (b_id r))
  else if String.eqb c "owner_id" then Some (VNum (b_owner_id r))
  else if String.eqb c "renter_id" then Some (VNum (b_renter_id r))
  else if String.eqb c "listing_id" then Some (VNum (b_listing_id r))
  else if String.eqb c "created_at" then Some (b_created_at r)
  else None.

Definition conversation_col (c : string) (r : conversation_row)
  : option value :=
  if String.eqb c "id" then Some (VNum (c_id r))
  else if String.eqb c "renter_id" then Some (VNum (c_renter_id r))
  else if String.eqb c "owner_id" then Some (VNum (c_owner_id r))
  else if String.eqb c "listing_id" then Some (VNum (c_listing_id r))
  else None.

Section Projection.
Context {R : Type} (column : string -> R -> option value).

(** The result object of one row; [None] when the list names a column the
    table does not have. *)
Fixpoint project (sel : select_list) (r : R) : option obj :=
  match sel with
  | [] => Some []
  | (c, a) :: sel' =>
      match column c r, project sel' r with
      | Some v, Some o => Some ((label a, v) :: o)
      | _, _ => None
      end
  end.

Fixpoint project_all (sel : select_list) (rs : list R)
  : option (list obj) :=
  match rs with
  | [] => Some []
  | r :: rs' =>
      match project sel r, project_all sel rs' with
      | Some o, Some os => Some (o :: os)
      | _, _ => None
      end
  end.
End Projection.

(** *** ORDER BY *)

Section Sorting.
Context {A : Type} (le : A -> A -> bool).

Fixpoint insert_sorted (x : A) (l : list A) : list A :=
  match l with
  | [] => [x]
  | y :: l' => if le x y then x :: l else y :: insert_sorted x l'
  end.

Fixpoint order_by (l : list A) : list A :=
  match l with
  | [] => []
  | x :: l' => insert_sorted x (order_by l')
  end.
End Sorting.

(** *** Statements *)

(** The statements the module sends, each with the lists the source writes
    into its text.  [$n] is the n-th bound parameter, counted from 1. *)
Inductive statement : Type :=
| SelectUsersByUsername (sel : select_list)
    (* SELECT sel FROM users WHERE username = $1 *)
| SelectUsersOrdered (sel : select_list)
    (* SELECT sel FROM users ORDER BY username *)
| InsertUser (returning : select_list)
    (* INSERT INTO users (username, password, first_name, last_name, email)
       VALUES ($1, $2, $3, $4, $5) RETURNING returning *)
| SelectListingsByOwner (sel : select_list)
    (* SELECT sel FROM listings WHERE owner_id = $1 ORDER BY id *)
| SelectBookingsByRenter (sel : select_list)
    (* SELECT sel FROM bookings WHERE renter_id = $1 ORDER BY id *)
| SelectConversationsByParty (sel : select_list)
    (* SELECT sel FROM conversations
       WHERE owner_id = $1 OR renter_id = $1 ORDER BY id *)
| UpdateUsers (setCols : list (string * nat)) (idVarIdx : nat)
              (returning : select_list)
    (* UPDATE users SET setCols WHERE id = $idVarIdx RETURNING returning *)
| DeleteUser (returning : select_list).
    (* DELETE FROM users WHERE id = $1 RETURNING returning *)

Record world : Type := mkWorld {
  store : tables;
  issued : list (statement * list value)
}.

Definition param (n : nat) (params : list value) : option value :=
  match n with
  | O => None
  | S n' => nth_error params n'
  end.

Definition text_param (n : nat) (params : list value) : option string :=
  match param n params with
  | Some (VStr s) => Some s
  | _ => None
  end.

Definition int_param (n : nat) (params : list value) : option Z :=
  match param n params with
  | Some (VNum z) => Some z
  | _ => None
  end.

(** [SET column = text] on one row, for the text columns of [users]. *)
Definition assignable (c : string) : bool :=
  existsb (String.eqb c)
          ["username"; "password"; "first_name"; "last_name"; "email"].

Definition set_user_col (c : string) (s : string) (r : user_row) : user_row :=
  if String.eqb c "username"
  then mkUser (u_id r) s (u_password r) (u_first_name r)
              (u_last_name r) (u_email r)
  else if String.eqb c "password"
  then mkUser (u_id r) (u_username r) s (u_first_name r)
              (u_last_name r) (u_email r)
  else if String.eqb c "first_name"
  then mkUser (u_id r) (u_username r) (u_password r) s
              (u_last_name r) (u_email r)
  else if String.eqb c "last_name"
  then mkUser (u_id r) (u_username r) (u_password r) (u_first_name r)
              s (u_email r)
  else if String.eqb c "email"
  then mkUser (u_id r) (u_username r) (u_password r) (u_first_name r)
              (u_last_name r) s
  else r.

(** The SET clause with its parameters bound: [None] when a fragment names a
    column that cannot be assigned or a parameter that is not a bound text. *)
Fixpoint resolve_set (setCols : list (string * nat)) (params : list value)
  : option (list (string * string)) :=
  match setCols with
  | [] => Some []
  | (c, n) :: rest =>
      match text_param n params, resolve_set rest params with
      | Some s, Some asg => if assignable c then Some ((c, s) :: asg) else None
      | _, _ => None
      end
  end.

(** The assignments on one row, left to right. *)
Fixpoint apply_set (asg : list (string * string)) (r : user_row) : user_row :=
  match asg with
  | [] => r
  | (c, s) :: rest => apply_set rest (set_user_col c s r)
  end.

(** The table after [UPDATE ... WHERE id = id]. *)
Definition update_rows (asg : list (string * string)) (id : Z)
                       (rs : list user_row) : list user_row :=
  map (fun r => if Z.eqb (u_id r) id then apply_set asg r else r) rs.

Definition with_users (t : tables) (us : list user_row) : tables :=
  mkTables us (users_id_seq t) (listings t) (bookings t) (conversations t).

Definition rows_or_failure (t : tables) (r : option (list obj))
  : outcome (list obj) * tables :=
  match r with
  | Some os => (Ok os, t)
  | None => (Throw StorageFailure, t)
  end.

Definition has_username (name : string) (r : user_row) : bool :=
  String.eqb (u_username r) name.

Definition has_id (id : Z) (r : user_row) : bool := Z.eqb (u_id r) id.

Section Store.
(** The collation order of the database on text, used by ORDER BY. *)
Variable text_le : string -> string -> bool.

Definition by_username (a b : user_row) : bool :=
  text_le (u_username a) (u_username b).

(** What one statement returns and does to the tables.  A statement that
    cannot be run (a missing or ill-typed parameter, an unknown column, an
    empty SET clause) is an unclassified failure and changes nothing. *)
Definition exec (q : statement) (params : list value) (t : tables)
  : outcome (list obj) * tables :=
  match q with
  | SelectUsersByUsername sel =>
      match text_param 1 params with
      | Some name =>
          rows_or_failure t
            (project_all user_col sel (filter (has_username name) (users t)))
      | None => (Throw StorageFailure, t)
      end
  | SelectUsersOrdered sel =>
      rows_or_failure t
        (project_all user_col sel (order_by by_username (users t)))
  | InsertUser returning =>
      match text_param 1 params, text_param 2 params, text_param 3 params,
            text_param 4 params, text_param 5 params with
      | Some username, Some password, Some first_name, Some last_name,
        Some email =>
          let r := mkUser (users_id_seq t) username password first_name
                          last_name email in
          match project user_col returning r with
          | Some o =>
              (Ok [o],
               mkTables (users t ++ [r]) (users_id_seq t + 1) (listings t)
                        (bookings t) (conversations t))
          | None => (Throw StorageFailure, t)
          end
      | _, _, _, _, _ => (Throw StorageFailure, t)
      end
  | SelectListingsByOwner sel =>
      match int_param 1 params with
      | Some id =>
          rows_or_failure t
            (project_all listing_col sel
               (order_by (fun a b => Z.leb (l_id a) (l_id b))
                  (filter (fun r => Z.eqb (l_owner_id r) id) (listings t))))
      | None => (Throw StorageFailure, t)
      end
  | SelectBookingsByRenter sel =>
      match int_param 1 params with
      | Some id =>
          rows_or_failure t
            (project_all booking_col sel
               (order_by (fun a b => Z.leb (b_id a) (b_id b))
                  (filter (fun r => Z.eqb (b_renter_id r) id) (bookings t))))
      | None => (Throw StorageFailure, t)
      end
  | SelectConversationsByParty sel =>
      match int_param 1 params with
      | Some id =>
          rows_or_failure t
            (project_all conversation_col sel
               (order_by (fun a b => Z.leb (c_id a) (c_id b))
                  (filter (fun r => Z.eqb (c_owner_id r) id
                                    || Z.eqb (c_renter_id r) id)%bool
                     (conversations t))))
      | None => (Throw StorageFailure, t)
      end
  | UpdateUsers setCols idVarIdx returning =>
      match setCols, resolve_set setCols params,
            int_param idVarIdx params with
      | _ :: _, Some asg, Some id =>
          let us := update_rows asg id (users t) in
          match project_all user_col returning (filter (has_id id) us) with
          | Some os => (Ok os, with_users t us)
          | None => (Throw StorageFailure, t)
          end
      | _, _, _ => (Throw StorageFailure, t)
      end
  | DeleteUser returning =>
      match int_param 1 params with
      | Some id =>
          match project_all user_col returning
                  (filter (has_id id) (users t)) with
          | Some os =>
              (Ok os,
               with_users t (filter (fun r => negb (has_id id r)) (users t)))
          | None => (Throw StorageFailure, t)
          end
      | None => (Throw StorageFailure, t)
      end
  end.

(** ** Computations *)

Definition M (A : Type) : Type := world -> outcome A * world.

Definition ret {A} (a : A) : M A := fun w => (Ok a, w).

Definition throw {A} (e : error) : M A := fun w => (Throw e, w).

Definition bind {A B} (m : M A) (k : A -> M B) : M B :=
  fun w =>
    match m w with
    | (Ok a, w') => k a w'
    | (Throw e, w') => (Throw e, w')
    end.

(** A synchronous call that may throw. *)
Definition lift {A} (r : outcome A) : M A := fun w => (r, w).

(** [await db.query(text, params)]: the statement is logged, run, and its
    rows returned. *)
Definition db_query (q : statement) (params : list value) : M (list obj) :=
  fun w =>
    let (r, t') := exec q params (store w) in
    (r, mkWorld t' (issued w ++ [(q, params)])).

Notation "x <- m ;; k" := (bind m (fun x => k))
  (at level 61, m at next level, right associativity).

(** ** helpers/sql.js *)

(** The column a logical field name stands for. *)
Definition translate (jsToSql : list (string * string)) (k : string)
  : string :=
  match obj_get k jsToSql with
  | Some c => c
  | None => k
  end.

(** The fragments [column = $n], numbered from [n]. *)
Fixpoint fragments (n : nat) (cols : list string) : list (string * nat) :=
  match cols with
  | [] => []
  | c :: cols' => (c, n) :: fragments (S n) cols'
  end.

(** Modelled from the spec: helpers/sql.js is not part of the sources.
    Section 4.2: the input is a mapping from logical field name to new
    value and a translation table for the fields whose column differs
    (other fields pass through unchanged); the output is the ordered list
    of [column = $n] fragments, one per provided field in insertion order,
    and the matching ordered list of bind values; an empty mapping fails
    with [ValidationError]. *)
Definition sqlForPartialUpdate (dataToUpdate : list (string * string))
                               (jsToSql : list (string * string))
  : outcome (list (string * nat) * list string) :=
  match dataToUpdate with
  | [] => Throw ValidationError
  | _ :: _ =>
      Ok (fragments 1 (map (translate jsToSql) (obj_keys dataToUpdate)),
          map snd dataToUpdate)
  end.

(** ** models/user.js *)

(** bcrypt: [bcrypt.hash(data, rounds)] with the salt it draws made
    explicit, and [bcrypt.compare(data, encrypted)]. *)
Variable bcrypt_hash : string -> nat -> string -> string.
Variable bcrypt_compare : string -> string -> bool.
(** config.js is not part of the sources. *)
Variable BCRYPT_WORK_FACTOR : nat.

(** The argument of [register]. *)
Record registration : Type := mkRegistration {
  username : string;
  password : string;
  firstName : string;
  lastName : string;
  email : string
}.

Definition authenticate (username password : string) : M obj :=
  result <- db_query
    (SelectUsersByUsername
       [col "id"; col "username"; col "password";
        col_as "first_name" (Quoted "firstName");
        col_as "last_name" (Quoted "lastName");
        col "email"])
    [VStr username] ;;
  match hd_error result with
  | Some user =>
      match js_get "password" user with
      | VStr hashed =>
          if bcrypt_compare password hashed
          then ret (obj_delete "password" user)
          else throw (UnauthorizedError "Invalid username/password")
      | _ => throw StorageFailure
      end
  | None => throw (UnauthorizedError "Invalid username/password")
  end.

Definition register (r : registration) (salt : string) : M (option obj) :=
  duplicateCheck <- db_query
    (SelectUsersByUsername [col "username"]) [VStr (username r)] ;;
  if Nat.ltb 0 (List.length duplicateCheck)
  then throw (BadRequestError (String.append "Duplicate username: " (username r)))
  else
    let hashedPassword :=
      bcrypt_hash (password r) BCRYPT_WORK_FACTOR salt in
    result <- db_query
      (InsertUser
         [col "id"; col "username";
          col_as "first_name" (Quoted "firstName");
          col_as "last_name" (Quoted "lastName");
          col "email"])
      [VStr (username r); VStr hashedPassword; VStr (firstName r);
       VStr (lastName r); VStr (email r)] ;;
    ret (hd_error result).

Definition getAll : M (list obj) :=
  db_query
    (SelectUsersOrdered
       [col "id"; col "username"; col "password";
        col_as "first_name" (Bare "firstName");
        col_as "last_name" (Bare "lastName");
        col "email"])
    [].

Definition get (username : string) : M obj :=
  userResult <- db_query
    (SelectUsersByUsername
       [col "id"; col "username";
        col_as "first_name" (Bare "firstName");
        col_as "last_name" (Bare "lastName");
        col "email"])
    [VStr username] ;;
  match hd_error userResult with
  | None => throw (NotFoundError (String.append "User not found: " username))
  | Some user =>
      listingsResult <- db_query
        (SelectListingsByOwner
           [col "id"; col "name"; col "description"; col "price";
            col "street"; col "city"; col "state"; col "zip"; col "genre"])
        [js_get "id" user] ;;
      let user := obj_set "listings" (VRows listingsResult) user in
      bookingsResult <- db_query
        (SelectBookingsByRenter
           [col "id"; col "owner_id"; col "renter_id"; col "listing_id";
            col "created_at"])
        [js_get "id" user] ;;
      let user := obj_set "bookings" (VRows bookingsResult) user in
      conversationsResult <- db_query
        (SelectConversationsByParty
           [col "id"; col "renter_id"; col "owner_id"; col "listing_id"])
        [js_get "id" user] ;;
      let user := obj_set "conversations" (VRows conversationsResult) user in
      ret user
  end.

(** The [if (data.password)] step of [update]. *)
Definition rehash (data : list (string * string)) (salt : string)
  : list (string * string) :=
  match obj_get "password" data with
  | Some p =>
      if js_truthy p
      then obj_set "password" (bcrypt_hash p BCRYPT_WORK_FACTOR salt) data
      else data
  | None => data
  end.

Definition update (id : Z) (data : list (string * string)) (salt : string)
  : M obj :=
  let data := rehash data salt in
  built <- lift (sqlForPartialUpdate data
                   [("firstName", "first_name");
                    ("lastName", "last_name")]) ;;
  let setCols := fst built in
  let values := snd built in
  let idVarIdx := (List.length values + 1)%nat in
  result <- db_query
    (UpdateUsers setCols idVarIdx
       [col "id";
        col_as "first_name" (Quoted "firstName");
        col_as "last_name" (Quoted "lastName");
        col "email"])
    (map VStr values ++ [VNum id]) ;;
  match hd_error result with
  | None => throw (NotFoundError (String.append "No user: " (string_of_Z id)))
  | Some user => ret (obj_delete "password" user)
  end.

Definition remove (id : Z) : M unit :=
  result <- db_query (DeleteUser [col "id"]) [VNum id] ;;
  match hd_error result with
  | None => throw (NotFoundError (String.append "No user: " (string_of_Z id)))
  | Some _ => ret tt
  end.

End Store.

(** ** Result shapes *)

(** The row [authenticate] reads. *)
Definition credentials_row (u : user_row) : obj :=
  [("id", VNum (u_id u)); ("username", VStr (u_username u));
   ("password", VStr (u_password u)); ("firstName", VStr (u_first_name u));
   ("lastName", VStr (u_last_name u)); ("email", VStr (u_email u))].

(** The public user projection: the user without its password. *)
Definition public_user (u : user_row) : obj :=
  [("id", VNum (u_id u)); ("username", VStr (u_username u));
   ("firstName", VStr (u_first_name u)); ("lastName", VStr (u_last_name u));
   ("email", VStr (u_email u))].

(** A row of [getAll]. *)
Definition raw_user (u : user_row) : obj :=
  [("id", VNum (u_id u)); ("username", VStr (u_username u));
   ("password", VStr (u_password u)); ("firstname", VStr (u_first_name u));
   ("lastname", VStr (u_last_name u)); ("email", VStr (u_email u))].

(** The user row [get] reads. *)
Definition profile_row (u : user_row) : obj :=
  [("id", VNum (u_id u)); ("username", VStr (u_username u));
   ("firstname", VStr (u_first_name u)); ("lastname", VStr (u_last_name u));
   ("email", VStr (u_email u))].

(** The row [update] gets back. *)
Definition updated_row (u : user_row) : obj :=
  [("id", VNum (u_id u)); ("firstName", VStr (u_first_name u));
   ("lastName", VStr (u_last_name u)); ("email", VStr (u_email u))].

Definition listing_obj (l : listing_row) : obj :=
  [("id", VNum (l_id l)); ("name", l_name l);
   ("description", l_description l); ("price", l_price l);
   ("street", l_street l); ("city", l_city l); ("state", l_state l);
   ("zip", l_zip l); ("genre", l_genre l)].

Definition booking_obj (b : booking_row) : obj :=
  [("id", VNum (b_id b)); ("owner_id", VNum (b_owner_id b));
   ("renter_id", VNum (b_renter_id b)); ("listing_id", VNum (b_listing_id b));
   ("created_at", b_created_at b)].

Definition conversation_obj (c : conversation_row) : obj :=
  [("id", VNum (c_id c)); ("renter_id", VNum (c_renter_id c));
   ("owner_id", VNum (c_owner_id c)); ("listing_id", VNum (c_listing_id c))].

(** The [id] of a result row. *)
Definition obj_id (o : obj) : Z :=
  match js_get "id" o with
  | VNum n => n
  | _ => 0
  end.

(** The [username] of a result row. *)
Definition obj_username (o : obj) : string :=
  match js_get "username" o with
  | VStr s => s
  | _ => ""
  end.

(** The user a lookup by username resolves to: the first matching row. *)
Definition lookup_user (name : string) (t : tables) : option user_row :=
  find (has_username name) (users t).

(** The stored row with a given id. *)
Definition lookup_id (id : Z) (t : tables) : option user_row :=
  find (has_id id) (users t).

(** The row [register] inserts: the next serial id, the digest in place of
    the password. *)
Definition new_user (r : registration) (hashedPassword : string) (t : tables)
  : user_row :=
  mkUser (users_id_seq t) (username r) hashedPassword
         (firstName r) (lastName r) (email r).

(** The rows the three aggregation queries of [get] select and order. *)
Definition listings_of (id : Z) (t : tables) : list listing_row :=
  order_by (fun a b => Z.leb (l_id a) (l_id b))
           (filter (fun r => Z.eqb (l_owner_id r) id) (listings t)).

Definition bookings_of (id : Z) (t : tables) : list booking_row :=
  order_by (fun a b => Z.leb (b_id a) (b_id b))
           (filter (fun r => Z.eqb (b_renter_id r) id) (bookings t)).

Definition conversations_of (id : Z) (t : tables) : list conversation_row :=
  order_by (fun a b => Z.leb (c_id a) (c_id b))
           (filter (fun r => Z.eqb (c_owner_id r) id || Z.eqb (c_renter_id r) id)%bool
                   (conversations t)).

(** The translation table [update] hands to the builder. *)
Definition jsToSql : list (string * string) :=
  [("firstName", "first_name"); ("lastName", "last_name")].

(** The RETURNING list of [update]. *)
Definition update_returning : select_list :=
  [col "id"; col_as "first_name" (Quoted "firstName");
   col_as "last_name" (Quoted "lastName"); col "email"].

(** The column assignments a field map stands for. *)
Definition assignments (data : list (string * string))
  : list (string * string) :=
  map (fun kv => (translate jsToSql (fst kv), snd kv)) data.

(** The fields [update] documents: [{ firstName, lastName, password, email }]. *)
Definition updatable : list string :=
  ["firstName"; "lastName"; "password"; "email"].

(** ** A sample store and a stand-in for bcrypt, for concrete runs *)

(** A digest that spells out the salt, one marked character at a time,
    before the text it was made of. *)
Fixpoint sample_hash (data : string) (rounds : nat) (salt : string)
  : string :=
  match salt with
  | EmptyString => String "$" data
  | String c salt' => String "+" (String c (sample_hash data rounds salt'))
  end.

(** The text a digest was made of. *)
Fixpoint sample_payload (encrypted : string) : option string :=
  match encrypted with
  | String "$" data => Some data
  | String "+" (String _ rest) => sample_payload rest
  | _ => None
  end.

Definition sample_compare (data encrypted : string) : bool :=
  match sample_payload encrypted with
  | Some d => String.eqb data d
  | None => false
  end.

Definition sample_rounds : nat := 12.

Definition alice : user_row :=
  mkUser 1 "alice" (sample_hash "secret" sample_rounds "s1")
         "Alice" "Adams" "alice@example.com".

Definition bob : user_row :=
  mkUser 2 "bob" (sample_hash "newpw" sample_rounds "s2")
         "Bob" "Brown" "bob@example.com".

Definition sample_tables : tables :=
  mkTables [bob; alice] 3
    [mkListing 11 1 (VStr "Yard") (VStr "A yard") (VNum 40) (VStr "1 Elm St")
               (VStr "Reno") (VStr "NV") (VStr "89501") (VStr "garden");
     mkListing 10 1 (VStr "Pool") (VStr "A pool") (VNum 90) (VStr "1 Elm St")
               (VStr "Reno") (VStr "NV") (VStr "89501") (VStr "pool");
     mkListing 12 2 (VStr "Deck") (VStr "A deck") (VNum 25) (VStr "2 Oak St")
               (VStr "Reno") (VStr "NV") (VStr "89502") (VStr "patio")]
    [mkBooking 21 2 1 12 (VStr "2023-05-01")]
    [].

Definition sample_world : world := mkWorld sample_tables [].

Definition carol : registration :=
  mkRegistration "carol" "pa55" "Carol" "Clark" "carol@example.com".

(** The values of a PostgreSQL [integer], the type of a serial [id].  The
    database rejects a parameter outside them before the statement runs;
    the statements above are modelled for ids within them. *)
Definition int4 (z : Z) : Prop := -2147483648 <= z <= 2147483647.

(** ** app.js: the handler of POST /upload-image *)

(** [req.file], as multer's memory storage leaves it. *)
Record uploaded_file : Type := mkFile {
  originalname : string;
  mimetype : string;
  buffer : string
}.

(** The [params] of the [Upload]. *)
Record upload_params : Type := mkUploadParams {
  Bucket : option string;
  Key : string;
  Body : string;
  ContentType : string;
  ContentDisposition : string
}.

(** What [res.send] answers: the status, 200 unless [res.status] set it,
    and the body. *)
Record response : Type := mkResponse {
  status : Z;
  body : obj
}.

(** A value of [process.env] where a string is expected: an unset variable
    is [undefined], whose text is "undefined". *)
Definition env_text (v : option string) : string :=
  match v with
  | Some s => s
  | None => "undefined"
  end.

Fixpoint string_drop (n : nat) (s : string) : string :=
  match n, s with
  | O, _ => s
  | S n', String _ s' => string_drop n' s'
  | S _, EmptyString => EmptyString
  end.

(** [s.replace(pattern, "")] for a string pattern: the first occurrence of
    the pattern, if any, is taken out. *)
Fixpoint js_remove_first (pattern s : string) : string :=
  if String.prefix pattern s
  then string_drop (String.length pattern) s
  else match s with
       | EmptyString => EmptyString
       | String c s' => String c (js_remove_first pattern s')
       end.

(** A string without a given character. *)
Fixpoint lacks (c : ascii) (s : string) : Prop :=
  match s with
  | EmptyString => True
  | String c' s' => c' <> c /\ lacks c s'
  end.

(** [pattern] occurs in [s]. *)
Definition occurs (pattern s : string) : Prop :=
  exists pre post, s = String.append pre (String.append pattern post).

Section Upload.
(** The S3 client is external.  [upload_done params] is [await
    upload.done()]: [None] when it resolves, the message of the error when
    it rejects.  [request_url bucket key] is [createRequest] followed by
    [formatUrl]: the URL, or the message of the error thrown. *)
Variable upload_done : upload_params -> option string.
Variable request_url : option string -> string -> string + string.
(** The message of the TypeError that reading a property of [undefined]
    throws. *)
Variable undefined_read_message : string.
(** [process.env.AWS_S3_BUCKET_NAME] and [process.env.BUCKET_BASE_URL]. *)
Variable bucketName : option string.
Variable BUCKET_URL : option string.

(** The answer of the [catch] block. *)
Definition upload_failure (message : string) : response :=
  mkResponse 500
    [("message", VStr "An error occurred while uploading the image");
     ("error", VStr message)].

(** The key of the uploaded object. *)
Definition upload_key (now : Z) (file : uploaded_file) : string :=
  String.append (string_of_Z now) (String.append "_" (originalname file)).

(** The handler, for a request whose file is [req_file] at time [now]
    (milliseconds): the response, and the uploads it started. *)
Definition upload_image (req_file : option uploaded_file) (now : Z)
  : response * list upload_params :=
  match req_file with
  | None => (upload_failure undefined_read_message, [])
  | Some file =>
      let key := upload_key now file in
      let params :=
        mkUploadParams bucketName key (buffer file) (mimetype file)
                       "inline" in
      match upload_done params with
      | Some message => (upload_failure message, [params])
      | None =>
          match request_url bucketName key with
          | inr message => (upload_failure message, [params])
          | inl imageUrl =>
              (mkResponse 200
                 [("message", VStr "Image uploaded successfully");
                  ("imageUrl",
                   VStr (js_remove_first (env_text BUCKET_URL) imageUrl))],
               [params])
          end
      end
  end.

End Upload.

(** A stand-in for the S3 client: uploads of an empty body are rejected, and
    the URL of an object is its key under the bucket's address. *)
Definition sample_upload_done (p : upload_params) : option string :=
  if String.eqb (Body p) "" then Some "empty body" else None.

Definition sample_request_url (bucket : option string) (key : string)
  : string + string :=
  match bucket with
  | Some b =>
      inl (String.append "https://"
             (String.append b (String.append ".s3.amazonaws.com/" key)))
  | None => inr "No value provided for input HTTP label: Bucket."
  end.

Definition sample_file : uploaded_file :=
  mkFile "pool.png" "image/png" "PNGDATA".


(** * Properties *)

(** ** Lists, objects and projections *)

Lemma hd_error_filter {A} (p : A -> bool) (l : list A) :
  hd_error (filter p l) = find p l.
Proof.
  induction l as [|x l IH]; simpl; [reflexivity|].
  destruct (p x); simpl; auto.
Qed.

Lemma filter_nil_iff {A} (p : A -> bool) (l : list A) :
  filter p l = [] <-> forall x, In x l -> p x = false.
Proof.
  induction l as [|x l IH]; simpl.
  - split; [intros _ y []|reflexivity].
  - destruct (p x) eqn:E; split.
    + discriminate.
    + intros H. specialize (H x (or_introl eq_refl)). congruence.
    + intros H y [->|Hy]; [exact E|]. now apply IH.
    + intros H. apply IH. intros y Hy. apply H. now right.
Qed.

Lemma find_none_iff {A} (p : A -> bool) (l : list A) :
  find p l = None <-> forall x, In x l -> p x = false.
Proof.
  rewrite <- hd_error_filter, <- filter_nil_iff.
  destruct (filter p l); simpl; split; congruence.
Qed.

Lemma project_all_map {R} (column : string -> R -> option value)
      (sel : select_list) (f : R -> obj) (rs : list R) :
  (forall r, project column sel r = Some (f r)) ->
  project_all column sel rs = Some (map f rs).
Proof.
  intros Hf. induction rs as [|r rs IH]; simpl; [reflexivity|].
  now rewrite Hf, IH.
Qed.

Lemma hd_error_map {A B} (f : A -> B) (l : list A) :
  hd_error (map f l) = option_map f (hd_error l).
Proof. destruct l; reflexivity. Qed.

Lemma sample_payload_hash (data : string) (rounds : nat) (salt : string) :
  sample_payload (sample_hash data rounds salt) = Some data.
Proof. induction salt as [|c salt IH]; simpl; auto. Qed.

Lemma sample_compare_hash (data other : string) (rounds : nat)
      (salt : string) :
  sample_compare other (sample_hash data rounds salt) = String.eqb other data.
Proof. unfold sample_compare. now rewrite sample_payload_hash. Qed.

Lemma find_map_preserving {A} (p : A -> bool) (g : A -> A) (l : list A) :
  (forall x, p (g x) = p x) ->
  find p (map g l) = option_map g (find p l).
Proof.
  intros Hg. induction l as [|x l IH]; simpl; [reflexivity|].
  rewrite Hg. destruct (p x); simpl; auto.
Qed.

(** *** ORDER BY sorts and keeps the rows *)

Lemma insert_sorted_perm {A} (le : A -> A -> bool) (x : A) (l : list A) :
  Permutation (insert_sorted le x l) (x :: l).
Proof.
  induction l as [|y l IH]; simpl; [reflexivity|].
  destruct (le x y); [reflexivity|].
  rewrite IH. apply perm_swap.
Qed.

Lemma order_by_perm {A} (le : A -> A -> bool) (l : list A) :
  Permutation (order_by le l) l.
Proof.
  induction l as [|x l IH]; simpl; [reflexivity|].
  rewrite insert_sorted_perm. now constructor.
Qed.

Lemma insert_sorted_hdrel {A} (le : A -> A -> bool) (a x : A) (l : list A) :
  le a x = true ->
  HdRel (fun u v => le u v = true) a l ->
  HdRel (fun u v => le u v = true) a (insert_sorted le x l).
Proof.
  intros Hax Hl. destruct l as [|y l]; simpl.
  - now constructor.
  - destruct (le x y); constructor; auto. now inversion Hl.
Qed.

Lemma insert_sorted_sorted {A} (le : A -> A -> bool) (x : A) (l : list A) :
  (forall u v, le u v = true \/ le v u = true) ->
  Sorted (fun u v => le u v = true) l ->
  Sorted (fun u v => le u v = true) (insert_sorted le x l).
Proof.
  intros Htot Hs. induction Hs as [|y l Hs IH Hhd]; simpl.
  - repeat constructor.
  - destruct (le x y) eqn:E.
    + repeat constructor; auto.
    + constructor; [exact IH|].
      apply insert_sorted_hdrel; [|exact Hhd].
      destruct (Htot x y); congruence.
Qed.

Lemma order_by_sorted {A} (le : A -> A -> bool) (l : list A) :
  (forall u v, le u v = true \/ le v u = true) ->
  Sorted (fun u v => le u v = true) (order_by le l).
Proof.
  intros Htot. induction l as [|x l IH]; simpl.
  - constructor.
  - now apply insert_sorted_sorted.
Qed.

Lemma Sorted_map {A B} (R : B -> B -> Prop) (f : A -> B) (l : list A) :
  Sorted (fun u v => R (f u) (f v)) l -> Sorted R (map f l).
Proof.
  induction 1 as [|x l Hs IH Hhd]; simpl; constructor; auto.
  destruct Hhd; simpl; constructor; auto.
Qed.

Lemma order_by_id_sorted {A} (key : A -> Z) (l : list A) :
  Sorted Z.le (map key (order_by (fun a b => Z.leb (key a) (key b)) l)).
Proof.
  apply Sorted_map.
  assert (H := order_by_sorted (fun a b => Z.leb (key a) (key b)) l).
  eapply Sorted_ind with (P := Sorted _); [constructor| |apply H].
  - intros a l' Hs IH Hhd. constructor; [exact IH|].
    destruct Hhd; constructor. now apply Z.leb_le.
  - intros u v. rewrite !Z.leb_le. lia.
Qed.

(** *** The statements, run *)

Section Runs.
Variable text_le : string -> string -> bool.
Variable bcrypt_hash : string -> nat -> string -> string.
Variable bcrypt_compare : string -> string -> bool.
Variable BCRYPT_WORK_FACTOR : nat.

Lemma query_users_by_username (sel : select_list) (f : user_row -> obj)
      (name : string) (w : world) :
  (forall r, project user_col sel r = Some (f r)) ->
  db_query text_le (SelectUsersByUsername sel) [VStr name] w =
  (Ok (map f (filter (has_username name) (users (store w)))),
   mkWorld (store w)
           (issued w ++ [(SelectUsersByUsername sel, [VStr name])])).
Proof.
  intros Hf. unfold db_query, exec. simpl.
  now rewrite (project_all_map _ _ f).
Qed.

Lemma authenticate_run (username password : string) (w : world) :
  fst (authenticate text_le bcrypt_compare username password w) =
  match lookup_user username (store w) with
  | Some u =>
      if bcrypt_compare password (u_password u)
      then Ok (public_user u)
      else Throw (UnauthorizedError "Invalid username/password")
  | None => Throw (UnauthorizedError "Invalid username/password")
  end
  /\ store (snd (authenticate text_le bcrypt_compare username password w))
     = store w.
Proof.
  unfold authenticate, bind.
  rewrite (query_users_by_username _ credentials_row) by reflexivity.
  rewrite hd_error_map, hd_error_filter. unfold lookup_user.
  destruct (find _ _) as [u|]; simpl; [|split; reflexivity].
  unfold js_get; simpl.
  destruct (bcrypt_compare _ _); split; reflexivity.
Qed.

Lemma register_run (r : registration) (salt : string) (w : world) :
  let out := register text_le bcrypt_hash BCRYPT_WORK_FACTOR r salt w in
  match lookup_user (username r) (store w) with
  | Some _ =>
      fst out = Throw (BadRequestError
                         (String.append "Duplicate username: " (username r)))
      /\ store (snd out) = store w
  | None =>
      fst out = Ok (Some (public_user (new_user r (bcrypt_hash (password r) BCRYPT_WORK_FACTOR salt) (store w))))
      /\ store (snd out) =
         mkTables (users (store w) ++ [new_user r (bcrypt_hash (password r) BCRYPT_WORK_FACTOR salt) (store w)])
                  (users_id_seq (store w) + 1) (listings (store w))
                  (bookings (store w)) (conversations (store w))
  end.
Proof.
  unfold register, bind.
  rewrite (query_users_by_username _ (fun u => [("username", VStr (u_username u))]))
    by reflexivity.
  rewrite length_map. unfold lookup_user. rewrite <- hd_error_filter.
  destruct (filter _ _) as [|u us]; simpl; split; reflexivity.
Qed.

Lemma getAll_run (w : world) :
  fst (getAll text_le w) =
  Ok (map raw_user (order_by (by_username text_le) (users (store w))))
  /\ store (snd (getAll text_le w)) = store w.
Proof.
  unfold getAll, db_query, exec; simpl.
  rewrite (project_all_map _ _ raw_user) by reflexivity.
  split; reflexivity.
Qed.

(** The three attached sequences of [get], for the user with a given id. *)
Lemma get_run (name : string) (w : world) :
  fst (get text_le name w) =
  match lookup_user name (store w) with
  | None => Throw (NotFoundError (String.append "User not found: " name))
  | Some u =>
      Ok (profile_row u ++
          [("listings", VRows (map listing_obj (listings_of (u_id u) (store w))));
           ("bookings", VRows (map booking_obj (bookings_of (u_id u) (store w))));
           ("conversations",
            VRows (map conversation_obj
                       (conversations_of (u_id u) (store w))))])
  end
  /\ store (snd (get text_le name w)) = store w.
Proof.
  unfold get, bind.
  rewrite (query_users_by_username _ profile_row) by reflexivity.
  rewrite hd_error_map, hd_error_filter. unfold lookup_user.
  destruct (find _ _) as [u|]; simpl; [|split; reflexivity].
  unfold db_query, exec; simpl.
  rewrite (project_all_map _ _ listing_obj) by reflexivity. simpl.
  rewrite (project_all_map _ _ booking_obj) by reflexivity. simpl.
  rewrite (project_all_map _ _ conversation_obj) by reflexivity. simpl.
  split; reflexivity.
Qed.

(** *** update *)

Lemma obj_keys_set_present {V} (k : string) (v v0 : V)
      (o : list (string * V)) :
  obj_get k o = Some v0 -> obj_keys (obj_set k v o) = obj_keys o.
Proof.
  induction o as [|[k' v'] o IH]; simpl; [discriminate|].
  destruct (String.eqb k k'); simpl; [reflexivity|].
  intros H. now rewrite (IH H).
Qed.

Lemma rehash_keys (data : list (string * string)) (salt : string) :
  obj_keys (rehash bcrypt_hash BCRYPT_WORK_FACTOR data salt) = obj_keys data.
Proof.
  unfold rehash. destruct (obj_get "password" data) as [p|] eqn:E; auto.
  destruct (js_truthy p); auto. eapply obj_keys_set_present; eauto.
Qed.

Lemma text_param_app (pre : list value) (s : string) (rest : list value) :
  text_param (S (List.length pre)) (pre ++ VStr s :: rest) = Some s.
Proof.
  unfold text_param, param.
  rewrite nth_error_app2, Nat.sub_diag by lia. reflexivity.
Qed.

Lemma resolve_fragments (data : list (string * string))
      (pre rest : list value) :
  (forall k, In k (obj_keys data) -> assignable (translate jsToSql k) = true) ->
  resolve_set
    (fragments (S (List.length pre)) (map (translate jsToSql) (obj_keys data)))
    (pre ++ map VStr (map snd data) ++ rest)
  = Some (assignments data).
Proof.
  revert pre. induction data as [|[k v] data IH]; intros pre Hk; simpl.
  - reflexivity.
  - rewrite text_param_app.
    specialize (IH (pre ++ [VStr v])).
    rewrite length_app in IH; simpl in IH.
    rewrite Nat.add_1_r, <- app_assoc in IH. simpl in IH.
    rewrite IH by (intros k' Hk'; apply Hk; now right).
    rewrite (Hk k) by now left. reflexivity.
Qed.

Lemma int_param_last (vals : list string) (id : Z) :
  int_param (List.length vals + 1) (map VStr vals ++ [VNum id]) = Some id.
Proof.
  unfold int_param, param. rewrite Nat.add_1_r.
  rewrite nth_error_app2; rewrite length_map; [|lia].
  now rewrite Nat.sub_diag.
Qed.

Lemma updatable_assignable (k : string) :
  In k updatable -> assignable (translate jsToSql k) = true.
Proof.
  intros [<-|[<-|[<-|[<-|[]]]]]; reflexivity.
Qed.

(** What [update] does on a non-empty map over the documented fields. *)
Lemma update_run (id : Z) (data : list (string * string)) (salt : string)
      (w : world) :
  data <> [] ->
  (forall k, In k (obj_keys data) -> In k updatable) ->
  let data' := rehash bcrypt_hash BCRYPT_WORK_FACTOR data salt in
  let us := update_rows (assignments data') id (users (store w)) in
  update text_le bcrypt_hash BCRYPT_WORK_FACTOR id data salt w =
  (match find (has_id id) us with
   | Some u => Ok (updated_row u)
   | None => Throw (NotFoundError (String.append "No user: " (string_of_Z id)))
   end,
   mkWorld (with_users (store w) us)
     (issued w ++
      [(UpdateUsers
          (fragments 1 (map (translate jsToSql) (obj_keys data')))
          (List.length data' + 1) update_returning,
        map VStr (map snd data') ++ [VNum id])])).
Proof.
  intros Hne Hkeys data' us.
  assert (Hk' : obj_keys data' = obj_keys data) by apply rehash_keys.
  assert (Hsql : sqlForPartialUpdate data' jsToSql =
                 Ok (fragments 1 (map (translate jsToSql) (obj_keys data')),
                     map snd data')).
  { destruct data' as [|kv rest]; [|reflexivity].
    destruct data; [congruence|discriminate]. }
  unfold update, bind, lift. fold data'. fold jsToSql. rewrite Hsql.
  cbn [fst snd]. unfold db_query, exec. cbn [store issued].
  destruct (fragments 1 _) as [|fr frs] eqn:Efr.
  { destruct data' as [|[k v] rest]; [|discriminate].
    destruct data; [congruence|discriminate]. }
  rewrite <- Efr.
  pose proof (resolve_fragments data' [] [VNum id]) as Hres.
  simpl List.length in Hres. simpl app in Hres at 1.
  rewrite Hres.
  2:{ intros k Hk. apply updatable_assignable, Hkeys. now rewrite <- Hk'. }
  rewrite int_param_last. fold us. fold update_returning.
  rewrite (project_all_map _ _ updated_row) by reflexivity.
  rewrite hd_error_map, hd_error_filter, length_map.
  destruct (find (has_id id) us); reflexivity.
Qed.

End Runs.

Lemma lookup_user_none (name : string) (t : tables) :
  (forall u, In u (users t) -> u_username u <> name) ->
  lookup_user name t = None.
Proof.
  intros H. apply find_none_iff. intros u Hu.
  apply String.eqb_neq. now apply H.
Qed.

Lemma lookup_user_some (name : string) (t : tables) :
  (exists u, In u (users t) /\ u_username u = name) ->
  exists u, lookup_user name t = Some u.
Proof.
  intros (u & Hu & Hn). unfold lookup_user.
  destruct (find _ _) as [u'|] eqn:E; [now exists u'|].
  rewrite find_none_iff in E. specialize (E u Hu).
  unfold has_username in E. apply String.eqb_neq in E. contradiction.
Qed.

Lemma lookup_user_found (name : string) (t : tables) (u : user_row) :
  lookup_user name t = Some u -> In u (users t) /\ u_username u = name.
Proof.
  intros H. apply find_some in H. destruct H as [Hin Hn].
  split; [exact Hin|]. now apply String.eqb_eq.
Qed.

Lemma Permutation_nil_filter {A B} (f : A -> B) (p : A -> bool)
      (l : list A) (out : list B) :
  Permutation out (map f (filter p l)) ->
  (forall x, In x l -> p x = false) -> out = [].
Proof.
  intros Hp Hn. apply filter_nil_iff in Hn. rewrite Hn in Hp.
  now apply Permutation_sym, Permutation_nil in Hp.
Qed.

(** *** SET touches the named columns only *)

Ltac split_names :=
  repeat match goal with
         | |- context [String.eqb ?x ?k] =>
             is_var x; destruct (String.eqb_spec x k); [subst x; simpl|]
         end.

Lemma set_user_col_other (c c' s : string) (r : user_row) :
  c <> c' -> user_col c (set_user_col c' s r) = user_col c r.
Proof.
  intros Hne. unfold set_user_col. split_names; try reflexivity;
    unfold user_col; simpl; split_names; congruence.
Qed.

Lemma set_user_col_same (c s : string) (r : user_row) :
  assignable c = true -> user_col c (set_user_col c s r) = Some (VStr s).
Proof.
  unfold assignable, set_user_col, user_col. simpl.
  split_names; try reflexivity; simpl; discriminate.
Qed.

Lemma apply_set_other (asg : list (string * string)) (c : string)
      (r : user_row) :
  ~ In c (map fst asg) -> user_col c (apply_set asg r) = user_col c r.
Proof.
  revert r. induction asg as [|[c' s] asg IH]; intros r Hc; simpl in *.
  - reflexivity.
  - rewrite IH by tauto. apply set_user_col_other. intros ->. tauto.
Qed.

Lemma apply_set_same (asg : list (string * string)) (c s : string)
      (r : user_row) :
  NoDup (map fst asg) -> In (c, s) asg -> assignable c = true ->
  user_col c (apply_set asg r) = Some (VStr s).
Proof.
  revert r. induction asg as [|[c' s'] asg IH]; intros r Hnd Hin Ha;
    simpl in *; [contradiction|].
  inversion Hnd as [|? ? Hnotin Hnd']; subst.
  destruct Hin as [E|Hin].
  - inversion E; subst. rewrite apply_set_other by exact Hnotin.
    now apply set_user_col_same.
  - now apply IH.
Qed.

Lemma apply_set_id (asg : list (string * string)) (r : user_row) :
  u_id (apply_set asg r) = u_id r.
Proof.
  revert r. induction asg as [|[c s] asg IH]; intros r; simpl; auto.
  rewrite IH. unfold set_user_col. split_names; reflexivity.
Qed.

(** The columns of a row, read back from [user_col]. *)
Lemma user_col_eq (r r' : user_row) :
  (user_col "username" r' = user_col "username" r ->
   u_username r' = u_username r)
  /\ (user_col "password" r' = user_col "password" r ->
      u_password r' = u_password r)
  /\ (user_col "first_name" r' = user_col "first_name" r ->
      u_first_name r' = u_first_name r)
  /\ (user_col "last_name" r' = user_col "last_name" r ->
      u_last_name r' = u_last_name r)
  /\ (user_col "email" r' = user_col "email" r -> u_email r' = u_email r).
Proof. repeat split; intros H; now inversion H. Qed.

(** The translation table is one-to-one on the documented fields. *)
Lemma translate_updatable_inj (k f : string) :
  In k updatable -> In f updatable ->
  translate jsToSql k = translate jsToSql f -> k = f.
Proof.
  intros [<-|[<-|[<-|[<-|[]]]]] [<-|[<-|[<-|[<-|[]]]]];
    simpl; intros H; try reflexivity; discriminate H.
Qed.

Lemma assignments_columns (data : list (string * string)) :
  map fst (assignments data) = map (translate jsToSql) (obj_keys data).
Proof. unfold assignments, obj_keys. now rewrite !map_map. Qed.

Lemma absent_field_absent_column (data : list (string * string))
      (f : string) :
  (forall k, In k (obj_keys data) -> In k updatable) ->
  In f updatable ->
  ~ In f (obj_keys data) ->
  ~ In (translate jsToSql f) (map fst (assignments data)).
Proof.
  intros Hk Hf Habs Hin. rewrite assignments_columns in Hin.
  apply in_map_iff in Hin. destruct Hin as (k & Ht & Hin).
  apply translate_updatable_inj in Ht; auto. now subst.
Qed.

Lemma assignments_nodup (data : list (string * string)) :
  (forall k, In k (obj_keys data) -> In k updatable) ->
  NoDup (obj_keys data) -> NoDup (map fst (assignments data)).
Proof.
  rewrite assignments_columns. unfold obj_keys.
  induction data as [|[k v] data IH]; simpl; intros Hk Hnd; [constructor|].
  inversion Hnd as [|? ? Hnotin Hnd']; subst. constructor.
  - intros Hin. apply in_map_iff in Hin. destruct Hin as (k' & Ht & Hin).
    assert (E : k' = k).
    { apply translate_updatable_inj; auto; apply Hk; [now right|now left]. }
    subst. contradiction.
  - apply IH; [|exact Hnd']. intros k0 H0. apply Hk. now right.
Qed.

(** *** The re-hash step on the field map *)

Lemma obj_get_in {V} (k : string) (v : V) (o : list (string * V)) :
  NoDup (obj_keys o) -> In (k, v) o -> obj_get k o = Some v.
Proof.
  unfold obj_keys. induction o as [|[k' v'] o IH]; simpl; intros Hnd Hin;
    [contradiction|].
  inversion Hnd as [|? ? Hnotin Hnd']; subst.
  destruct Hin as [E|Hin].
  - inversion E; subst. now rewrite String.eqb_refl.
  - destruct (String.eqb_spec k k') as [->|]; [|now apply IH].
    exfalso. apply Hnotin. change k' with (fst (k', v)). now apply in_map.
Qed.

Lemma obj_set_in_other {V} (k k' : string) (v v' : V)
      (o : list (string * V)) :
  k' <> k -> In (k', v') o -> In (k', v') (obj_set k v o).
Proof.
  intros Hne. induction o as [|[k0 v0] o IH]; simpl; [tauto|].
  destruct (String.eqb_spec k k0) as [->|]; simpl.
  - intros [E|Hin]; [inversion E; congruence|now right].
  - intros [E|Hin]; [now left|right; auto].
Qed.

Lemma obj_set_in_same {V} (k : string) (v v0 : V) (o : list (string * V)) :
  obj_get k o = Some v0 -> In (k, v) (obj_set k v o).
Proof.
  induction o as [|[k0 v1] o IH]; simpl; [discriminate|].
  destruct (String.eqb_spec k k0) as [->|]; simpl; [now left|].
  intros H. right. auto.
Qed.

Lemma update_rows_nth (asg : list (string * string)) (id : Z)
      (rs : list user_row) (i : nat) :
  nth_error (update_rows asg id rs) i =
  option_map (fun r => if Z.eqb (u_id r) id then apply_set asg r else r)
             (nth_error rs i).
Proof. unfold update_rows. apply nth_error_map. Qed.

Lemma rehash_in_other (bh : string -> nat -> string -> string) (wf : nat)
      (data : list (string * string)) (salt k v : string) :
  k <> "password" -> In (k, v) data -> In (k, v) (rehash bh wf data salt).
Proof.
  intros Hne Hin. unfold rehash.
  destruct (obj_get "password" data) as [p|]; [|exact Hin].
  destruct (js_truthy p); [|exact Hin]. now apply obj_set_in_other.
Qed.

Lemma rehash_in_password (bh : string -> nat -> string -> string) (wf : nat)
      (data : list (string * string)) (salt v : string) :
  NoDup (obj_keys data) -> In ("password", v) data ->
  In ("password", if js_truthy v then bh v wf salt else v)
     (rehash bh wf data salt).
Proof.
  intros Hnd Hin. unfold rehash.
  rewrite (obj_get_in _ _ _ Hnd Hin).
  destruct (js_truthy v); [|exact Hin].
  eapply obj_set_in_same, obj_get_in; eauto.
Qed.

Lemma fragments_columns (n : nat) (cols : list string) :
  map fst (fragments n cols) = cols.
Proof.
  revert n. induction cols as [|c cols IH]; intros n; simpl; [reflexivity|].
  now rewrite IH.
Qed.

Lemma in_assignments (data : list (string * string)) (k v : string) :
  In (k, v) data -> In (translate jsToSql k, v) (assignments data).
Proof.
  intros Hin. unfold assignments.
  change (translate jsToSql k, v)
    with ((fun kv : string * string =>
             (translate jsToSql (fst kv), snd kv)) (k, v)).
  now apply in_map.
Qed.

Lemma username_not_assigned (data : list (string * string)) :
  (forall k, In k (obj_keys data) -> In k updatable) ->
  ~ In "username" (map fst (assignments data)).
Proof.
  intros Hk Hin. rewrite assignments_columns in Hin.
  apply in_map_iff in Hin. destruct Hin as (k & Ht & Hin).
  apply Hk in Hin. destruct Hin as [<-|[<-|[<-|[<-|[]]]]]; discriminate Ht.
Qed.

Lemma find_app_last {A} (p : A -> bool) (l : list A) (x : A) :
  (forall y, In y l -> p y = false) -> p x = true ->
  find p (l ++ [x]) = Some x.
Proof.
  intros Hno Hx. induction l as [|y l IH]; simpl.
  - now rewrite Hx.
  - rewrite (Hno y) by now left. apply IH. intros z Hz. apply Hno. now right.
Qed.

(** ** The claims *)

Section Properties.
Variable text_le : string -> string -> bool.
Variable bcrypt_hash : string -> nat -> string -> string.
Variable bcrypt_compare : string -> string -> bool.
Variable BCRYPT_WORK_FACTOR : nat.

Local Abbreviation authenticate := (authenticate text_le bcrypt_compare).
Local Abbreviation register :=
  (register text_le bcrypt_hash BCRYPT_WORK_FACTOR).
Local Abbreviation getAll := (getAll text_le).
Local Abbreviation get := (get text_le).
Local Abbreviation update :=
  (update text_le bcrypt_hash BCRYPT_WORK_FACTOR).
Local Abbreviation hash := (fun data salt =>
  bcrypt_hash data BCRYPT_WORK_FACTOR salt).

(** C1. [authenticate(username, password)] looks the user up by username.
    When the user exists and the password verifies against the stored hash,
    the result is the public projection of that user, which has no password
    field.  When no user has the username, and when the password does not
    verify, the call fails with one and the same [UnauthorizedError]. *)
Theorem authenticate_spec (username password : string) (w : world) :
  (forall u,
      lookup_user username (store w) = Some u ->
      bcrypt_compare password (u_password u) = true ->
      fst (authenticate username password w) = Ok (public_user u)
      /\ obj_get "password" (public_user u) = None)
  /\ ((forall u, In u (users (store w)) -> u_username u <> username) ->
      fst (authenticate username password w) =
      Throw (UnauthorizedError "Invalid username/password"))
  /\ (forall u,
      lookup_user username (store w) = Some u ->
      bcrypt_compare password (u_password u) = false ->
      fst (authenticate username password w) =
      Throw (UnauthorizedError "Invalid username/password")).
Proof.
  destruct (authenticate_run text_le bcrypt_compare username password w)
    as [Hrun _].
  split; [|split].
  - intros u Hu Hc. rewrite Hrun, Hu, Hc. split; reflexivity.
  - intros Hno. rewrite Hrun, lookup_user_none; auto.
  - intros u Hu Hc. rewrite Hrun, Hu, Hc. reflexivity.
Qed.

(** C3. [register] on a username already present in storage fails with
    [BadRequestError] and leaves the tables as they were; on a username not
    present it stores exactly one new row, holding the digest of the
    password, and returns the public projection of that row. *)
Theorem register_spec (r : registration) (salt : string) (w : world) :
  ((exists u, In u (users (store w)) /\ u_username u = username r) ->
   fst (register r salt w) =
   Throw (BadRequestError (String.append "Duplicate username: " (username r)))
   /\ store (snd (register r salt w)) = store w)
  /\ ((forall u, In u (users (store w)) -> u_username u <> username r) ->
      let new := new_user r (hash (password r) salt) (store w) in
      fst (register r salt w) = Ok (Some (public_user new))
      /\ obj_get "password" (public_user new) = None
      /\ users (store (snd (register r salt w))) = users (store w) ++ [new]
      /\ listings (store (snd (register r salt w))) = listings (store w)
      /\ bookings (store (snd (register r salt w))) = bookings (store w)
      /\ conversations (store (snd (register r salt w)))
         = conversations (store w)).
Proof.
  pose proof (register_run text_le bcrypt_hash BCRYPT_WORK_FACTOR r salt w)
    as Hrun.
  cbv zeta in Hrun. split.
  - intros Hdup. apply lookup_user_some in Hdup. destruct Hdup as [u Hu].
    rewrite Hu in Hrun. exact Hrun.
  - intros Hnew new. rewrite (lookup_user_none _ _ Hnew) in Hrun.
    destruct Hrun as [Hout Hst]. rewrite Hout, Hst.
    repeat split; reflexivity.
Qed.

(** C5. [update(id, {})] fails with [ValidationError] and leaves the world
    as it was: no statement is issued and no table changes. *)
Theorem update_empty (id : Z) (salt : string) (w : world) :
  update id [] salt w = (Throw ValidationError, w)
  /\ issued (snd (update id [] salt w)) = issued w
  /\ store (snd (update id [] salt w)) = store w.
Proof. repeat split; reflexivity. Qed.

(** C4. [get(username)] fails with [NotFoundError] when no user has the
    username.  Otherwise it returns the user row with three sequences
    attached: the listings the user owns, the bookings the user rents, and
    the conversations the user is owner or renter of, each in ascending order
    of id, and each empty when there is no such row. *)
Theorem get_spec (name : string) (w : world) :
  ((forall u, In u (users (store w)) -> u_username u <> name) ->
   fst (get name w) =
   Throw (NotFoundError (String.append "User not found: " name)))
  /\ (forall u,
      lookup_user name (store w) = Some u ->
      exists ls bs cs,
        fst (get name w) =
        Ok (profile_row u ++
            [("listings", VRows ls); ("bookings", VRows bs);
             ("conversations", VRows cs)])
        /\ Permutation ls
             (map listing_obj
                (filter (fun l => Z.eqb (l_owner_id l) (u_id u))
                        (listings (store w))))
        /\ Permutation bs
             (map booking_obj
                (filter (fun b => Z.eqb (b_renter_id b) (u_id u))
                        (bookings (store w))))
        /\ Permutation cs
             (map conversation_obj
                (filter (fun c => Z.eqb (c_owner_id c) (u_id u)
                                  || Z.eqb (c_renter_id c) (u_id u))%bool
                        (conversations (store w))))
        /\ Sorted Z.le (map obj_id ls)
        /\ Sorted Z.le (map obj_id bs)
        /\ Sorted Z.le (map obj_id cs)
        /\ ((forall l, In l (listings (store w)) ->
                       l_owner_id l <> u_id u) -> ls = [])
        /\ ((forall b, In b (bookings (store w)) ->
                       b_renter_id b <> u_id u) -> bs = [])
        /\ ((forall c, In c (conversations (store w)) ->
                       c_owner_id c <> u_id u /\ c_renter_id c <> u_id u) ->
            cs = [])).
Proof.
  destruct (get_run text_le name w) as [Hrun _]. split.
  - intros Hno. now rewrite Hrun, lookup_user_none.
  - intros u Hu. rewrite Hu in Hrun.
    assert (Pl : Permutation
                   (map listing_obj (listings_of (u_id u) (store w)))
                   (map listing_obj
                      (filter (fun l => Z.eqb (l_owner_id l) (u_id u))
                              (listings (store w)))))
      by apply Permutation_map, order_by_perm.
    assert (Pb : Permutation
                   (map booking_obj (bookings_of (u_id u) (store w)))
                   (map booking_obj
                      (filter (fun b => Z.eqb (b_renter_id b) (u_id u))
                              (bookings (store w)))))
      by apply Permutation_map, order_by_perm.
    assert (Pc : Permutation
                   (map conversation_obj
                      (conversations_of (u_id u) (store w)))
                   (map conversation_obj
                      (filter (fun c => Z.eqb (c_owner_id c) (u_id u)
                                        || Z.eqb (c_renter_id c) (u_id u))%bool
                              (conversations (store w)))))
      by apply Permutation_map, order_by_perm.
    eexists _, _, _. split; [exact Hrun|].
    split; [exact Pl|]. split; [exact Pb|]. split; [exact Pc|].
    split; [|split; [|split; [|split; [|split]]]].
    + rewrite map_map. apply (order_by_id_sorted l_id).
    + rewrite map_map. apply (order_by_id_sorted b_id).
    + rewrite map_map. apply (order_by_id_sorted c_id).
    + intros Hn. eapply Permutation_nil_filter; [exact Pl|].
      intros l Hl. apply Z.eqb_neq. now apply Hn.
    + intros Hn. eapply Permutation_nil_filter; [exact Pb|].
      intros b Hb. apply Z.eqb_neq. now apply Hn.
    + intros Hn. eapply Permutation_nil_filter; [exact Pc|].
      intros c Hc. destruct (Hn c Hc) as [H1 H2].
      apply Z.eqb_neq in H1, H2. now rewrite H1, H2.
Qed.

(** The rows of [users] after [update], one by one. *)
Lemma update_row_effect (id : Z) (data : list (string * string))
      (salt : string) (w : world) :
  data <> [] ->
  NoDup (obj_keys data) ->
  (forall k, In k (obj_keys data) -> In k updatable) ->
  forall i u,
    nth_error (users (store w)) i = Some u ->
    exists u',
      nth_error (users (store (snd (update id data salt w)))) i = Some u'
      /\ u_id u' = u_id u
      /\ u_username u' = u_username u
      /\ (u_id u <> id -> u' = u)
      /\ (~ In "firstName" (obj_keys data) ->
          u_first_name u' = u_first_name u)
      /\ (~ In "lastName" (obj_keys data) ->
          u_last_name u' = u_last_name u)
      /\ (~ In "email" (obj_keys data) -> u_email u' = u_email u)
      /\ (~ In "password" (obj_keys data) ->
          u_password u' = u_password u)
      /\ (u_id u = id ->
          (forall v, In ("firstName", v) data -> u_first_name u' = v)
          /\ (forall v, In ("lastName", v) data -> u_last_name u' = v)
          /\ (forall v, In ("email", v) data -> u_email u' = v)
          /\ (forall v, In ("password", v) data ->
                        u_password u' =
                        if js_truthy v then hash v salt else v)).
Proof.
  intros Hne Hnd Hkeys i u Hu.
  rewrite (update_run text_le bcrypt_hash BCRYPT_WORK_FACTOR id data salt w
             Hne Hkeys).
  cbn [snd store with_users users].
  set (data' := rehash bcrypt_hash BCRYPT_WORK_FACTOR data salt).
  assert (Hk' : obj_keys data' = obj_keys data) by apply rehash_keys.
  assert (Hkeys' : forall k, In k (obj_keys data') -> In k updatable)
    by (rewrite Hk'; exact Hkeys).
  assert (Hnd' : NoDup (map fst (assignments data')))
    by (apply assignments_nodup; [exact Hkeys'|now rewrite Hk']).
  rewrite update_rows_nth, Hu. cbn [option_map].
  eexists. split; [reflexivity|].
  destruct (Z.eqb_spec (u_id u) id) as [Hid|Hid].
  - set (u' := apply_set (assignments data') u).
    destruct (user_col_eq u u') as (Eu & Ep & Ef & El & Ee).
    assert (Habs : forall f, In f updatable -> ~ In f (obj_keys data) ->
              user_col (translate jsToSql f) u'
              = user_col (translate jsToSql f) u).
    { intros f Hf Hno. apply apply_set_other.
      apply absent_field_absent_column; auto. now rewrite Hk'. }
    assert (Hpres : forall k v, In k updatable -> In (k, v) data' ->
              user_col (translate jsToSql k) u' = Some (VStr v)).
    { intros k v Hk Hin. apply apply_set_same; auto.
      - now apply in_assignments.
      - now apply updatable_assignable. }
    split; [apply apply_set_id|].
    split; [apply Eu, apply_set_other, username_not_assigned, Hkeys'|].
    split; [intros Hc; contradiction|].
    split; [intros Hno; apply Ef, (Habs "firstName"); simpl; auto|].
    split; [intros Hno; apply El, (Habs "lastName"); simpl; auto|].
    split; [intros Hno; apply Ee, (Habs "email"); simpl; auto|].
    split; [intros Hno; apply Ep, (Habs "password"); simpl; auto|].
    intros _. repeat split; intros v Hv.
    + assert (H := Hpres "firstName" v). simpl in H.
      assert (E : Some (VStr (u_first_name u')) = Some (VStr v)).
      { apply H; auto. apply rehash_in_other; [discriminate|exact Hv]. }
      now inversion E.
    + assert (H := Hpres "lastName" v). simpl in H.
      assert (E : Some (VStr (u_last_name u')) = Some (VStr v)).
      { apply H; auto. apply rehash_in_other; [discriminate|exact Hv]. }
      now inversion E.
    + assert (H := Hpres "email" v). simpl in H.
      assert (E : Some (VStr (u_email u')) = Some (VStr v)).
      { apply H; auto 6. apply rehash_in_other; [discriminate|exact Hv]. }
      now inversion E.
    + assert (H := Hpres "password"
                     (if js_truthy v then hash v salt else v)).
      simpl in H.
      assert (E : Some (VStr (u_password u'))
                  = Some (VStr (if js_truthy v then hash v salt else v))).
      { apply H; auto. now apply rehash_in_password. }
      now inversion E.
  - repeat split; auto; intros; contradiction.
Qed.

(** C9. [update(id, data)] on a non-empty map over
    [{firstName, lastName, email, password}] writes only the fields the map
    holds, and only on the rows with that id: every row keeps its position,
    its id and its username; a row with another id is unchanged; a field
    absent from the map keeps its stored value.  No other table changes.  The
    one statement issued has one SET fragment and one bound value per field
    of the map, so an absent password is not among them. *)
Theorem update_frame (id : Z) (data : list (string * string))
        (salt : string) (w : world) :
  data <> [] ->
  NoDup (obj_keys data) ->
  (forall k, In k (obj_keys data) -> In k updatable) ->
  let w' := snd (update id data salt w) in
  (forall i u,
      nth_error (users (store w)) i = Some u ->
      exists u',
        nth_error (users (store w')) i = Some u'
        /\ u_id u' = u_id u
        /\ u_username u' = u_username u
        /\ (u_id u <> id -> u' = u)
        /\ (~ In "firstName" (obj_keys data) ->
            u_first_name u' = u_first_name u)
        /\ (~ In "lastName" (obj_keys data) ->
            u_last_name u' = u_last_name u)
        /\ (~ In "email" (obj_keys data) -> u_email u' = u_email u)
        /\ (~ In "password" (obj_keys data) ->
            u_password u' = u_password u))
  /\ List.length (users (store w')) = List.length (users (store w))
  /\ users_id_seq (store w') = users_id_seq (store w)
  /\ listings (store w') = listings (store w)
  /\ bookings (store w') = bookings (store w)
  /\ conversations (store w') = conversations (store w)
  /\ exists setCols values,
      issued w' =
      issued w ++
      [(UpdateUsers setCols (List.length values + 1) update_returning,
        map VStr values ++ [VNum id])]
      /\ map fst setCols = map (translate jsToSql) (obj_keys data)
      /\ List.length values = List.length data
      /\ (~ In "password" (obj_keys data) ->
          ~ In "password" (map fst setCols)).
Proof using text_le bcrypt_hash BCRYPT_WORK_FACTOR.
  intros Hne Hnd Hkeys w'. split.
  { intros i u Hu.
    destruct (update_row_effect id data salt w Hne Hnd Hkeys i u Hu)
      as (u' & H1 & H2 & H3 & H4 & H5 & H6 & H7 & H8 & _).
    exists u'. repeat (split; [assumption|]). assumption. }
  subst w'.
  rewrite (update_run text_le bcrypt_hash BCRYPT_WORK_FACTOR id data salt w
             Hne Hkeys).
  cbn [snd store issued with_users users users_id_seq listings bookings
       conversations].
  set (data' := rehash bcrypt_hash BCRYPT_WORK_FACTOR data salt).
  assert (Hk' : obj_keys data' = obj_keys data) by apply rehash_keys.
  split; [unfold update_rows; apply length_map|].
  repeat (split; [reflexivity|]).
  exists (fragments 1 (map (translate jsToSql) (obj_keys data'))),
         (map snd data').
  rewrite fragments_columns, Hk', !length_map.
  repeat split.
  - rewrite <- (length_map fst data'), <- (length_map fst data).
    change (map fst data') with (obj_keys data').
    now rewrite Hk'.
  - intros Hno Hin. apply in_map_iff in Hin.
    destruct Hin as (k & Ht & Hin).
    assert (k = "password").
    { apply translate_updatable_inj;
        [apply Hkeys; exact Hin|right; right; left; reflexivity|exact Ht]. }
    subst k. exact (Hno Hin).
Qed.

(** C10. When the map holds a password that is falsy (the empty string),
    [update] skips the re-hash: the map goes to the builder as it came, the
    one statement issued binds the caller's own values, and the rows with
    that id end up with the falsy value itself in their password column. *)
Theorem update_falsy_password (id : Z) (data : list (string * string))
        (salt p : string) (w : world) :
  NoDup (obj_keys data) ->
  (forall k, In k (obj_keys data) -> In k updatable) ->
  In ("password", p) data ->
  js_truthy p = false ->
  let w' := snd (update id data salt w) in
  p = ""
  /\ rehash bcrypt_hash BCRYPT_WORK_FACTOR data salt = data
  /\ issued w' =
     issued w ++
     [(UpdateUsers (fragments 1 (map (translate jsToSql) (obj_keys data)))
                   (List.length data + 1) update_returning,
       map VStr (map snd data) ++ [VNum id])]
  /\ In ("password", p) (assignments data)
  /\ (forall i u,
         nth_error (users (store w)) i = Some u ->
         u_id u = id ->
         exists u',
           nth_error (users (store w')) i = Some u' /\ u_password u' = p).
Proof.
  intros Hnd Hkeys Hin Hfalsy w'.
  assert (Hne : data <> []) by (intros ->; contradiction).
  assert (Hre : rehash bcrypt_hash BCRYPT_WORK_FACTOR data salt = data).
  { unfold rehash. rewrite (obj_get_in _ _ _ Hnd Hin). now rewrite Hfalsy. }
  split; [|split; [exact Hre|split; [|split]]].
  - unfold js_truthy in Hfalsy. apply negb_false_iff in Hfalsy.
    now apply String.eqb_eq.
  - subst w'.
    rewrite (update_run text_le bcrypt_hash BCRYPT_WORK_FACTOR id data salt w
               Hne Hkeys).
    cbn [snd issued]. now rewrite Hre.
  - apply (in_assignments data "password" p Hin).
  - intros i u Hu Hid.
    destruct (update_row_effect id data salt w Hne Hnd Hkeys i u Hu)
      as (u' & H1 & _ & _ & _ & _ & _ & _ & _ & Hpres).
    exists u'. split; [exact H1|].
    destruct (Hpres Hid) as (_ & _ & _ & Hp).
    rewrite (Hp p Hin), Hfalsy. reflexivity.
Qed.

(** C7. [getAll()] returns every user, in ascending order of username, and
    each row carries the stored password digest.  The other reads do not:
    no result of [authenticate] or [get] has a password field. *)
Theorem getAll_spec (w : world) :
  (forall a b, text_le a b = true \/ text_le b a = true) ->
  exists rows,
    fst (getAll w) = Ok rows
    /\ Permutation rows (map raw_user (users (store w)))
    /\ Sorted (fun a b => text_le (obj_username a) (obj_username b) = true)
              rows
    /\ (forall o, In o rows ->
          exists u, In u (users (store w)) /\ o = raw_user u
                    /\ obj_get "password" o = Some (VStr (u_password u)))
    /\ (forall name pw o,
          fst (authenticate name pw w) = Ok o -> obj_get "password" o = None)
    /\ (forall name o,
          fst (get name w) = Ok o -> obj_get "password" o = None).
Proof.
  intros Htot. destruct (getAll_run text_le w) as [Hrun _].
  eexists. split; [exact Hrun|].
  split; [apply Permutation_map, order_by_perm|].
  split; [|split; [|split]].
  - apply Sorted_map with (f := raw_user)
                          (R := fun a b => text_le (obj_username a)
                                                   (obj_username b) = true).
    apply (order_by_sorted (by_username text_le)).
    intros u v. apply Htot.
  - intros o Ho. apply in_map_iff in Ho. destruct Ho as (u & <- & Hu).
    exists u. split; [|split; reflexivity].
    eapply Permutation_in; [apply order_by_perm|exact Hu].
  - intros name pw o.
    destruct (authenticate_run text_le bcrypt_compare name pw w) as [-> _].
    destruct (lookup_user name (store w)) as [u|]; [|discriminate].
    destruct (bcrypt_compare pw (u_password u)); [|discriminate].
    intros E. inversion E. reflexivity.
  - intros name o. destruct (get_run text_le name w) as [-> _].
    destruct (lookup_user name (store w)) as [u|]; [|discriminate].
    intros E. inversion E. reflexivity.
Qed.

(** Whatever [update] returns is the RETURNING row: id, firstName, lastName
    and email. *)
Lemma update_result_shape (id : Z) (data : list (string * string))
      (salt : string) (w : world) (o : obj) :
  fst (update id data salt w) = Ok o ->
  exists u, o = updated_row u.
Proof.
  unfold update, bind, lift.
  destruct (sqlForPartialUpdate _ _) as [[setCols values]|e];
    [|discriminate].
  cbn [fst snd]. unfold db_query, exec.
  destruct setCols as [|fr frs]; [discriminate|].
  destruct (resolve_set _ _) as [asg|]; [|discriminate].
  destruct (int_param _ _) as [id'|]; [|discriminate].
  rewrite (project_all_map _ _ updated_row) by reflexivity.
  rewrite hd_error_map.
  destruct (hd_error _) as [u|]; [|discriminate].
  cbn. intros E. inversion E. now exists u.
Qed.

(** [update] on an id no row has fails with [NotFoundError]. *)
Lemma update_not_found (id : Z) (data : list (string * string))
      (salt : string) (w : world) :
  data <> [] ->
  (forall k, In k (obj_keys data) -> In k updatable) ->
  (forall u, In u (users (store w)) -> u_id u <> id) ->
  fst (update id data salt w)
  = Throw (NotFoundError (String.append "No user: " (string_of_Z id))).
Proof.
  intros Hne Hkeys Hno.
  rewrite (update_run text_le bcrypt_hash BCRYPT_WORK_FACTOR id data salt w
             Hne Hkeys).
  cbn [fst].
  destruct (find _ _) as [r|] eqn:E; [|reflexivity].
  exfalso. apply find_some in E. destruct E as [Hin Hid].
  unfold update_rows in Hin. apply in_map_iff in Hin.
  destruct Hin as (r0 & Hr & Hin0). specialize (Hno r0 Hin0).
  apply Z.eqb_neq in Hno. rewrite Hno in Hr. subst r0.
  unfold has_id in Hid. congruence.
Qed.

(** After a successful [register], [get] finds the new row and returns the
    registered values under the labels of its select list. *)
Lemma register_then_get_values (r : registration) (salt : string)
      (w : world) :
  (forall u, In u (users (store w)) -> u_username u <> username r) ->
  exists o,
    fst (get (username r) (snd (register r salt w))) = Ok o
    /\ obj_get "firstname" o = Some (VStr (firstName r))
    /\ obj_get "lastname" o = Some (VStr (lastName r))
    /\ obj_get "email" o = Some (VStr (email r))
    /\ obj_get "firstName" o = None
    /\ obj_get "lastName" o = None.
Proof.
  intros Hnew.
  pose proof (register_run text_le bcrypt_hash BCRYPT_WORK_FACTOR r salt w)
    as Hreg.
  cbv zeta in Hreg. rewrite (lookup_user_none _ _ Hnew) in Hreg.
  destruct Hreg as [_ Hst].
  destruct (get_run text_le (username r) (snd (register r salt w)))
    as [Hget _].
  rewrite Hst in Hget. unfold lookup_user in Hget. cbn [users] in Hget.
  rewrite find_app_last in Hget.
  - eexists. split; [exact Hget|]. repeat split; reflexivity.
  - intros u Hu. apply String.eqb_neq. now apply Hnew.
  - apply String.eqb_refl.
Qed.

(** C6, amended.  For an existing user and a non-empty new password,
    [update(id, {password: newpw})] succeeds and stores the digest of [newpw]
    in place of the old one; the statement issued binds the digest, not the
    text.  After that [authenticate] on the username answers by
    [bcrypt.compare] against the new digest alone.  So, with a hasher that
    accepts a text against a digest made of it, [authenticate] accepts
    [newpw]; and it rejects every old password that [bcrypt.compare] rejects
    against the new digest. *)
Theorem update_password_then_authenticate
        (u : user_row) (oldpw newpw salt : string) (w : world) :
  (forall data rounds s,
      bcrypt_compare data (bcrypt_hash data rounds s) = true) ->
  lookup_user (u_username u) (store w) = Some u ->
  bcrypt_compare oldpw (u_password u) = true ->
  newpw <> "" ->
  bcrypt_compare oldpw (hash newpw salt) = false ->
  let out := update (u_id u) [("password", newpw)] salt w in
  let u' := mkUser (u_id u) (u_username u) (hash newpw salt)
                   (u_first_name u) (u_last_name u) (u_email u) in
  (exists o, fst out = Ok o)
  /\ issued (snd out) =
     issued w ++
     [(UpdateUsers [("password", 1%nat)] 2 update_returning,
       [VStr (hash newpw salt); VNum (u_id u)])]
  /\ lookup_user (u_username u) (store (snd out)) = Some u'
  /\ u_password u' <> u_password u
  /\ fst (authenticate (u_username u) newpw (snd out)) = Ok (public_user u')
  /\ fst (authenticate (u_username u) oldpw (snd out))
     = Throw (UnauthorizedError "Invalid username/password")
  /\ (forall pw,
         fst (authenticate (u_username u) pw (snd out))
         = if bcrypt_compare pw (hash newpw salt)
           then Ok (public_user u')
           else Throw (UnauthorizedError "Invalid username/password")).
Proof.
  intros Hbc Hu Hold Hnonempty Hreject out u'.
  assert (Hne : [("password", newpw)] <> []) by discriminate.
  assert (Hkeys : forall k, In k (obj_keys [("password", newpw)]) ->
                            In k updatable)
    by (intros k [<-|[]]; simpl; tauto).
  assert (Htruthy : js_truthy newpw = true).
  { unfold js_truthy. apply negb_true_iff. now apply String.eqb_neq. }
  pose proof (update_run text_le bcrypt_hash BCRYPT_WORK_FACTOR (u_id u)
                _ salt w Hne Hkeys) as Hrun.
  cbv zeta in Hrun. fold out in Hrun.
  unfold rehash in Hrun. cbn [obj_get] in Hrun.
  rewrite String.eqb_refl, Htruthy in Hrun.
  cbn [obj_set] in Hrun. rewrite String.eqb_refl in Hrun.
  unfold assignments in Hrun. cbn [map fst snd translate] in Hrun.
  change (translate jsToSql "password") with "password" in Hrun.
  unfold update_rows in Hrun.
  set (g := fun r : user_row =>
              if Z.eqb (u_id r) (u_id u)
              then apply_set [("password", hash newpw salt)] r else r)
    in *.
  assert (Hg : forall name r, has_username name (g r) = has_username name r).
  { intros name r. unfold g. destruct (Z.eqb (u_id r) (u_id u)); reflexivity. }
  assert (Hlook : lookup_user (u_username u) (store (snd out)) = Some u').
  { rewrite Hrun. cbn [snd store with_users users]. unfold lookup_user.
    unfold with_users. cbn [users].
    rewrite (find_map_preserving _ g) by apply Hg.
    unfold lookup_user in Hu. rewrite Hu. cbn [option_map].
    unfold g. now rewrite Z.eqb_refl. }
  assert (Hp : u_password u' <> u_password u).
  { intros E. rewrite <- E in Hold. cbn [u_password u'] in Hold.
    congruence. }
  assert (Hauth : forall pw,
             fst (authenticate (u_username u) pw (snd out))
             = if bcrypt_compare pw (hash newpw salt)
               then Ok (public_user u')
               else Throw (UnauthorizedError "Invalid username/password")).
  { intros pw.
    destruct (authenticate_run text_le bcrypt_compare (u_username u) pw
                               (snd out)) as [-> _].
    now rewrite Hlook. }
  split; [|split; [now rewrite Hrun|split; [exact Hlook|split; [exact Hp|]]]].
  - rewrite Hrun. cbn [fst].
    destruct (find _ _) as [r|] eqn:E; [eauto|].
    exfalso. rewrite find_none_iff in E.
    apply lookup_user_found in Hu. destruct Hu as [Hin _].
    specialize (E (g u) (in_map g _ _ Hin)).
    unfold g, has_id in E. rewrite Z.eqb_refl in E.
    rewrite apply_set_id, Z.eqb_refl in E. discriminate.
  - split; [|split; [|exact Hauth]].
    + now rewrite Hauth, Hbc.
    + now rewrite Hauth, Hreject.
Qed.

End Properties.

(** ** The claims on the sample store *)

Lemma authenticate_spec_witness :
  fst (authenticate String.leb sample_compare "alice" "secret" sample_world)
  = Ok (public_user alice)
  /\ fst (authenticate String.leb sample_compare "zoe" "secret" sample_world)
     = Throw (UnauthorizedError "Invalid username/password")
  /\ fst (authenticate String.leb sample_compare "alice" "guess" sample_world)
     = Throw (UnauthorizedError "Invalid username/password").
Proof.
  split; [|split].
  - destruct (authenticate_spec String.leb sample_compare "alice" "secret"
                                sample_world) as (H & _ & _).
    apply (H alice); reflexivity.
  - destruct (authenticate_spec String.leb sample_compare "zoe" "secret"
                                sample_world) as (_ & H & _).
    apply H. intros u [<-|[<-|[]]]; discriminate.
  - destruct (authenticate_spec String.leb sample_compare "alice" "guess"
                                sample_world) as (_ & _ & H).
    apply (H alice); reflexivity.
Defined.

Lemma register_spec_witness :
  (fst (register String.leb sample_hash sample_rounds
                 (mkRegistration "alice" "pw" "A" "B" "a@example.com") "s3"
                 sample_world)
   = Throw (BadRequestError "Duplicate username: alice")
   /\ store (snd (register String.leb sample_hash sample_rounds
                    (mkRegistration "alice" "pw" "A" "B" "a@example.com")
                    "s3" sample_world))
      = sample_tables)
  /\ fst (register String.leb sample_hash sample_rounds carol "s3"
                   sample_world)
     = Ok (Some [("id", VNum 3); ("username", VStr "carol");
                 ("firstName", VStr "Carol"); ("lastName", VStr "Clark");
                 ("email", VStr "carol@example.com")])
  /\ users (store (snd (register String.leb sample_hash sample_rounds carol
                                 "s3" sample_world)))
     = [bob; alice;
        mkUser 3 "carol" (sample_hash "pa55" sample_rounds "s3")
               "Carol" "Clark" "carol@example.com"].
Proof.
  split.
  - destruct (register_spec String.leb sample_hash sample_rounds
                (mkRegistration "alice" "pw" "A" "B" "a@example.com") "s3"
                sample_world) as [H _].
    apply H. exists alice. split; [simpl; tauto|reflexivity].
  - destruct (register_spec String.leb sample_hash sample_rounds carol "s3"
                            sample_world) as [_ H].
    assert (Hnew : forall u, In u (users (store sample_world)) ->
                             u_username u <> username carol)
      by (intros u [<-|[<-|[]]]; discriminate).
    destruct (H Hnew) as (H1 & _ & H2 & _).
    split; [exact H1|exact H2].
Defined.

Lemma get_spec_witness :
  fst (get String.leb "zoe" sample_world)
  = Throw (NotFoundError "User not found: zoe")
  /\ exists ls bs cs,
      fst (get String.leb "alice" sample_world)
      = Ok (profile_row alice ++
            [("listings", VRows ls); ("bookings", VRows bs);
             ("conversations", VRows cs)])
      /\ Sorted Z.le (map obj_id ls)
      /\ Sorted Z.le (map obj_id bs)
      /\ Sorted Z.le (map obj_id cs)
      /\ cs = [].
Proof.
  split.
  - destruct (get_spec String.leb "zoe" sample_world) as [H _].
    apply H. intros u [<-|[<-|[]]]; discriminate.
  - destruct (get_spec String.leb "alice" sample_world) as [_ H].
    destruct (H alice eq_refl)
      as (ls & bs & cs & Hget & _ & _ & _ & Sl & Sb & Sc & _ & _ & Hc).
    exists ls, bs, cs.
    split; [exact Hget|split; [exact Sl|split; [exact Sb|split]]];
      [exact Sc|].
    apply Hc. intros c [].
Defined.

Lemma getAll_spec_witness :
  exists rows,
    fst (getAll String.leb sample_world) = Ok rows
    /\ Permutation rows (map raw_user [bob; alice])
    /\ Sorted (fun a b => String.leb (obj_username a) (obj_username b) = true)
              rows.
Proof.
  destruct (getAll_spec String.leb sample_compare sample_world
                        String.leb_total)
    as (rows & H1 & H2 & H3 & _).
  exists rows. repeat split; assumption.
Defined.

Lemma update_frame_witness :
  let w' := snd (update String.leb sample_hash sample_rounds 1
                        [("firstName", "Alicia")] "s4" sample_world) in
  (exists u', nth_error (users (store w')) 0 = Some u' /\ u' = bob)
  /\ (exists u', nth_error (users (store w')) 1 = Some u'
                 /\ u_last_name u' = "Adams"
                 /\ u_email u' = "alice@example.com"
                 /\ u_password u' = u_password alice)
  /\ listings (store w') = listings sample_tables.
Proof.
  assert (Hne : [("firstName", "Alicia")] <> []) by discriminate.
  assert (Hnd : NoDup (obj_keys [("firstName", "Alicia")]))
    by (repeat constructor; simpl; tauto).
  assert (Hk : forall k, In k (obj_keys [("firstName", "Alicia")]) ->
                         In k updatable)
    by (intros k [<-|[]]; simpl; tauto).
  destruct (update_frame String.leb sample_hash sample_rounds 1
                         [("firstName", "Alicia")] "s4" sample_world
                         Hne Hnd Hk)
    as (Hrows & _ & _ & Hl & _).
  split; [|split; [|exact Hl]].
  - destruct (Hrows 0%nat bob eq_refl) as (u' & H1 & _ & _ & H2 & _).
    exists u'. split; [exact H1|]. apply H2. discriminate.
  - destruct (Hrows 1%nat alice eq_refl)
      as (u' & H1 & _ & _ & _ & _ & H2 & H3 & H4).
    exists u'. split; [exact H1|].
    split; [apply H2|split; [apply H3|apply H4]];
      simpl; intros [E|[]]; discriminate.
Defined.

Lemma update_falsy_password_witness :
  let w' := snd (update String.leb sample_hash sample_rounds 1
                        [("password", "")] "s4" sample_world) in
  issued w' =
  [(UpdateUsers [("password", 1%nat)] 2 update_returning,
    [VStr ""; VNum 1])]
  /\ exists u', nth_error (users (store w')) 1 = Some u'
                /\ u_password u' = "".
Proof.
  assert (Hnd : NoDup (obj_keys [("password", "")]))
    by (repeat constructor; simpl; tauto).
  assert (Hk : forall k, In k (obj_keys [("password", "")]) ->
                         In k updatable)
    by (intros k [<-|[]]; simpl; tauto).
  destruct (update_falsy_password String.leb sample_hash sample_rounds 1
              [("password", "")] "s4" "" sample_world Hnd Hk
              (or_introl eq_refl) eq_refl)
    as (_ & _ & Hq & _ & Hrows).
  split; [exact Hq|].
  apply (Hrows 1%nat alice); reflexivity.
Defined.

Lemma update_password_then_authenticate_witness :
  let out := update String.leb sample_hash sample_rounds 1
                    [("password", "newpw")] "s9" sample_world in
  (exists o, fst out = Ok o)
  /\ fst (authenticate String.leb sample_compare "alice" "newpw" (snd out))
     = Ok (public_user
             (mkUser 1 "alice" (sample_hash "newpw" sample_rounds "s9")
                     "Alice" "Adams" "alice@example.com"))
  /\ fst (authenticate String.leb sample_compare "alice" "secret" (snd out))
     = Throw (UnauthorizedError "Invalid username/password").
Proof.
  assert (Hbc : forall data rounds s,
             sample_compare data (sample_hash data rounds s) = true)
    by (intros; rewrite sample_compare_hash; apply String.eqb_refl).
  assert (Hnonempty : "newpw" <> "") by discriminate.
  destruct (update_password_then_authenticate
              String.leb sample_hash sample_compare sample_rounds
              alice "secret" "newpw" "s9" sample_world
              Hbc eq_refl eq_refl Hnonempty eq_refl)
    as (H1 & _ & _ & _ & H2 & H3 & _).
  split; [exact H1|split; [exact H2|exact H3]].
Defined.

(** C6 as stated fails when the old password is the new one.  [bob]'s
    password is "newpw"; after [update(2, {password: "newpw"})] succeeds,
    [authenticate("bob", "newpw")] with that old password does not fail. *)
Lemma update_same_password_counterexample :
  let out := update String.leb sample_hash sample_rounds 2
                    [("password", "newpw")] "s9" sample_world in
  lookup_user "bob" sample_tables = Some bob
  /\ sample_compare "newpw" (u_password bob) = true
  /\ (exists o, fst out = Ok o)
  /\ ~ (exists e,
          fst (authenticate String.leb sample_compare "bob" "newpw" (snd out))
          = Throw e).
Proof.
  split; [reflexivity|split; [reflexivity|split]].
  - eexists. reflexivity.
  - intros [e H]. vm_compute in H. discriminate H.
Qed.

(** C2 on the sample store: the row [update] returns for an existing id has
    id, firstName, lastName and email, and no username. *)
Lemma update_result_omits_username :
  lookup_id 1 sample_tables = Some alice
  /\ fst (update String.leb sample_hash sample_rounds 1
                 [("firstName", "Alicia")] "s4" sample_world)
     = Ok [("id", VNum 1); ("firstName", VStr "Alicia");
           ("lastName", VStr "Adams"); ("email", VStr "alice@example.com")]
  /\ obj_get "username"
       [("id", VNum 1); ("firstName", VStr "Alicia");
        ("lastName", VStr "Adams"); ("email", VStr "alice@example.com")]
     = None.
Proof. repeat split; reflexivity. Qed.

(** C8 on the sample store: after a successful [register], the row [get]
    returns has the registered first and last name under [firstname] and
    [lastname]; its [firstName] and [lastName] are undefined. *)
Lemma register_then_get_labels :
  let w1 := snd (register String.leb sample_hash sample_rounds carol "s3"
                          sample_world) in
  fst (register String.leb sample_hash sample_rounds carol "s3" sample_world)
  = Ok (Some [("id", VNum 3); ("username", VStr "carol");
              ("firstName", VStr "Carol"); ("lastName", VStr "Clark");
              ("email", VStr "carol@example.com")])
  /\ fst (get String.leb "carol" w1)
     = Ok [("id", VNum 3); ("username", VStr "carol");
           ("firstname", VStr "Carol"); ("lastname", VStr "Clark");
           ("email", VStr "carol@example.com"); ("listings", VRows []);
           ("bookings", VRows []); ("conversations", VRows [])]
  /\ (forall o, fst (get String.leb "carol" w1) = Ok o ->
                js_get "firstName" o = VUndefined
                /\ js_get "lastName" o = VUndefined
                /\ js_get "email" o = VStr "carol@example.com").
Proof.
  split; [reflexivity|split; [reflexivity|]].
  intros o H. vm_compute in H. inversion H. repeat split; reflexivity.
Qed.

(** * Further properties of the [User] model *)

(** ** Lists *)

Lemma filter_all {A} (p : A -> bool) (l : list A) :
  (forall x, In x l -> p x = true) -> filter p l = l.
Proof.
  induction l as [|x l IH]; simpl; intros H; [reflexivity|].
  rewrite (H x) by now left. f_equal. apply IH. intros y Hy. apply H. now right.
Qed.

Lemma NoDup_map_filter {K R} (key : R -> K) (keep : R -> bool)
      (rows : list R) :
  NoDup (map key rows) -> NoDup (map key (filter keep rows)).
Proof.
  induction rows as [|r rows IH]; simpl; intros Hnd; [constructor|].
  inversion Hnd as [|? ? Hfresh Hrest]; subst.
  destruct (keep r); simpl; [|now apply IH].
  constructor; [|now apply IH].
  intros Hin. apply Hfresh. apply in_map_iff in Hin.
  destruct Hin as (r' & Hkey & Hin). apply filter_In in Hin.
  apply in_map_iff. exists r'. tauto.
Qed.

Lemma NoDup_map_inj_in {K R} (key : R -> K) (rows : list R) (a b : R) :
  NoDup (map key rows) -> In a rows -> In b rows -> key a = key b -> a = b.
Proof.
  induction rows as [|r rows IH]; simpl; intros Hnd Ha Hb Hkey;
    [contradiction|].
  inversion Hnd as [|? ? Hfresh Hrest]; subst.
  destruct Ha as [->|Ha], Hb as [->|Hb]; auto.
  - exfalso. apply Hfresh. rewrite Hkey. now apply in_map.
  - exfalso. apply Hfresh. rewrite <- Hkey. now apply in_map.
Qed.

Lemma NoDup_snoc {A} (l : list A) (x : A) :
  NoDup l -> ~ In x l -> NoDup (l ++ [x]).
Proof.
  induction l as [|y l IH]; simpl; intros Hnd Hx.
  - constructor; [tauto|constructor].
  - inversion Hnd as [|? ? Hnotin Hnd']; subst. constructor.
    + rewrite in_app_iff. simpl. intros [H|[H|[]]]; [tauto|].
      apply Hx. now left.
    + apply IH; tauto.
Qed.

Lemma find_app_or {A} (p : A -> bool) (l l' : list A) :
  find p (l ++ l') =
  match find p l with
  | Some x => Some x
  | None => find p l'
  end.
Proof.
  induction l as [|x l IH]; simpl; [reflexivity|].
  destruct (p x); auto.
Qed.

Lemma with_users_same (t : tables) : with_users t (users t) = t.
Proof. destruct t; reflexivity. Qed.

Lemma lookup_id_found (id : Z) (t : tables) (u : user_row) :
  lookup_id id t = Some u -> In u (users t) /\ u_id u = id.
Proof.
  intros H. apply find_some in H. destruct H as [Hin Hid].
  split; [exact Hin|]. now apply Z.eqb_eq.
Qed.

Lemma apply_set_username (asg : list (string * string)) (r : user_row) :
  ~ In "username" (map fst asg) ->
  u_username (apply_set asg r) = u_username r.
Proof.
  intros H. apply (apply_set_other asg "username" r) in H.
  now inversion H.
Qed.

Lemma update_rows_usernames (asg : list (string * string)) (id : Z)
      (rs : list user_row) :
  ~ In "username" (map fst asg) ->
  map u_username (update_rows asg id rs) = map u_username rs.
Proof.
  intros H. unfold update_rows. rewrite map_map. apply map_ext.
  intros r. destruct (Z.eqb (u_id r) id); [|reflexivity].
  now apply apply_set_username.
Qed.

Lemma update_rows_ids (asg : list (string * string)) (id : Z)
      (rs : list user_row) :
  map u_id (update_rows asg id rs) = map u_id rs.
Proof.
  unfold update_rows. rewrite map_map. apply map_ext.
  intros r. destruct (Z.eqb (u_id r) id); [|reflexivity].
  apply apply_set_id.
Qed.

Lemma update_rows_no_match (asg : list (string * string)) (id : Z)
      (rs : list user_row) :
  (forall r, In r rs -> u_id r <> id) -> update_rows asg id rs = rs.
Proof.
  intros H. unfold update_rows. rewrite <- (map_id rs) at 2.
  apply map_ext_in. intros r Hr. apply H in Hr.
  apply Z.eqb_neq in Hr. now rewrite Hr.
Qed.

Section Composition.
Variable text_le : string -> string -> bool.
Variable bcrypt_hash : string -> nat -> string -> string.
Variable bcrypt_compare : string -> string -> bool.
Variable BCRYPT_WORK_FACTOR : nat.

(** *** remove, run *)

Lemma remove_run (id : Z) (w : world) :
  remove text_le id w =
  (match lookup_id id (store w) with
   | Some _ => Ok tt
   | None => Throw (NotFoundError (String.append "No user: " (string_of_Z id)))
   end,
   mkWorld (with_users (store w)
              (filter (fun r => negb (has_id id r)) (users (store w))))
           (issued w ++ [(DeleteUser [col "id"], [VNum id])])).
Proof.
  unfold remove, bind, db_query, exec. cbn [int_param param nth_error].
  rewrite (project_all_map _ _ (fun u => [("id", VNum (u_id u))]))
    by reflexivity.
  rewrite hd_error_map, hd_error_filter. unfold lookup_id.
  destruct (find _ _); reflexivity.
Qed.

Lemma get_statements (name : string) (w : world) :
  issued (snd (get text_le name w)) =
  issued w ++
  match lookup_user name (store w) with
  | None =>
      [(SelectUsersByUsername
          [col "id"; col "username";
           col_as "first_name" (Bare "firstName");
           col_as "last_name" (Bare "lastName"); col "email"],
        [VStr name])]
  | Some u =>
      [(SelectUsersByUsername
          [col "id"; col "username";
           col_as "first_name" (Bare "firstName");
           col_as "last_name" (Bare "lastName"); col "email"],
        [VStr name]);
       (SelectListingsByOwner
          [col "id"; col "name"; col "description"; col "price";
           col "street"; col "city"; col "state"; col "zip"; col "genre"],
        [VNum (u_id u)]);
       (SelectBookingsByRenter
          [col "id"; col "owner_id"; col "renter_id"; col "listing_id";
           col "created_at"],
        [VNum (u_id u)]);
       (SelectConversationsByParty
          [col "id"; col "renter_id"; col "owner_id"; col "listing_id"],
        [VNum (u_id u)])]
  end.
Proof.
  unfold get, bind.
  rewrite (query_users_by_username _ _ profile_row) by reflexivity.
  rewrite hd_error_map, hd_error_filter. unfold lookup_user.
  destruct (find _ _) as [u|]; simpl; [|reflexivity].
  unfold db_query, exec; simpl.
  rewrite (project_all_map _ _ listing_obj) by reflexivity. simpl.
  rewrite (project_all_map _ _ booking_obj) by reflexivity. simpl.
  rewrite (project_all_map _ _ conversation_obj) by reflexivity. simpl.
  now rewrite <- !app_assoc.
Qed.

Local Abbreviation authenticate := (authenticate text_le bcrypt_compare).
Local Abbreviation register :=
  (register text_le bcrypt_hash BCRYPT_WORK_FACTOR).
Local Abbreviation getAll := (getAll text_le).
Local Abbreviation get := (get text_le).
Local Abbreviation update :=
  (update text_le bcrypt_hash BCRYPT_WORK_FACTOR).
Local Abbreviation remove := (remove text_le).
Local Abbreviation hash := (fun data salt =>
  bcrypt_hash data BCRYPT_WORK_FACTOR salt).

Lemma register_store (r : registration) (salt : string) (w : world) :
  users (store (snd (register r salt w))) = users (store w)
  \/ ((forall u, In u (users (store w)) -> u_username u <> username r)
      /\ users (store (snd (register r salt w)))
         = users (store w)
           ++ [new_user r (hash (password r) salt) (store w)]).
Proof.
  pose proof (register_run text_le bcrypt_hash BCRYPT_WORK_FACTOR r salt w)
    as Hrun.
  cbv zeta in Hrun.
  destruct (lookup_user (username r) (store w)) eqn:E.
  - left. destruct Hrun as [_ ->]. reflexivity.
  - right. destruct Hrun as [_ ->]. split; [|reflexivity].
    intros u Hu. unfold lookup_user in E. rewrite find_none_iff in E.
    apply String.eqb_neq. now apply E.
Qed.

Lemma lookup_after_register (r : registration) (salt : string) (w : world) :
  (forall u, In u (users (store w)) -> u_username u <> username r) ->
  lookup_user (username r) (store (snd (register r salt w)))
  = Some (new_user r (hash (password r) salt) (store w)).
Proof.
  intros Hnew.
  pose proof (register_run text_le bcrypt_hash BCRYPT_WORK_FACTOR r salt w)
    as Hrun.
  cbv zeta in Hrun. rewrite (lookup_user_none _ _ Hnew) in Hrun.
  destruct Hrun as [_ ->]. unfold lookup_user. cbn [users].
  apply find_app_last.
  - intros u Hu. apply String.eqb_neq. now apply Hnew.
  - apply String.eqb_refl.
Qed.

(** X1. For an id within the range of the id column: [remove(id)] on an id
    no row has fails with [NotFoundError] and leaves the tables as they
    were; on an id some row has it returns undefined and the users left are
    exactly those with another id, in their order. *)
Theorem remove_spec (id : Z) (w : world) :
  int4 id ->
  ((forall u, In u (users (store w)) -> u_id u <> id) ->
   fst (remove id w)
   = Throw (NotFoundError (String.append "No user: " (string_of_Z id)))
   /\ store (snd (remove id w)) = store w)
  /\ ((exists u, In u (users (store w)) /\ u_id u = id) ->
      fst (remove id w) = Ok tt
      /\ users (store (snd (remove id w)))
         = filter (fun r => negb (Z.eqb (u_id r) id)) (users (store w))
      /\ (forall u, In u (users (store (snd (remove id w))))
                    <-> In u (users (store w)) /\ u_id u <> id)).
Proof.
  intros _. rewrite remove_run. cbn [fst snd store]. split.
  - intros Hno. assert (E : lookup_id id (store w) = None).
    { apply find_none_iff. intros u Hu. apply Z.eqb_neq. now apply Hno. }
    rewrite E. split; [reflexivity|].
    rewrite filter_all; [apply with_users_same|].
    intros u Hu. unfold has_id. apply negb_true_iff, Z.eqb_neq.
    now apply Hno.
  - intros (u & Hu & Hid).
    destruct (lookup_id id (store w)) eqn:E.
    + split; [reflexivity|]. split; [reflexivity|].
      intros r. cbn [users with_users]. rewrite filter_In.
      unfold has_id. rewrite negb_true_iff, Z.eqb_neq. reflexivity.
    + exfalso. unfold lookup_id in E. rewrite find_none_iff in E.
      specialize (E u Hu). unfold has_id in E. apply Z.eqb_neq in E.
      contradiction.
Qed.

(** X2. With unique usernames, once [remove(id)] has deleted a user, [get]
    on that username fails with [NotFoundError] and [authenticate] on it
    fails with [UnauthorizedError], whatever the password. *)
Theorem remove_then_get (id : Z) (u : user_row) (w : world) :
  NoDup (map u_username (users (store w))) ->
  lookup_id id (store w) = Some u ->
  fst (remove id w) = Ok tt
  /\ fst (get (u_username u) (snd (remove id w)))
     = Throw (NotFoundError
                (String.append "User not found: " (u_username u)))
  /\ (forall pw,
         fst (authenticate (u_username u) pw (snd (remove id w)))
         = Throw (UnauthorizedError "Invalid username/password")).
Proof.
  intros Hnd Hu. rewrite remove_run, Hu. cbn [fst snd].
  apply lookup_id_found in Hu. destruct Hu as [Hin Hid].
  assert (Hgone : lookup_user (u_username u)
                    (with_users (store w)
                       (filter (fun r => negb (has_id id r))
                               (users (store w)))) = None).
  { apply lookup_user_none. cbn [users with_users].
    intros r Hr Hname. apply filter_In in Hr. destruct Hr as [Hr Hrid].
    assert (r = u) by (eapply NoDup_map_inj_in; eauto).
    subst r. unfold has_id in Hrid. apply negb_true_iff, Z.eqb_neq in Hrid.
    contradiction. }
  split; [reflexivity|split].
  - destruct (get_run text_le (u_username u)
                (mkWorld (with_users (store w)
                            (filter (fun r => negb (has_id id r))
                                    (users (store w))))
                         (issued w ++ [(DeleteUser [col "id"], [VNum id])])))
      as [-> _].
    cbn [store]. now rewrite Hgone.
  - intros pw.
    destruct (authenticate_run text_le bcrypt_compare (u_username u) pw
                (mkWorld (with_users (store w)
                            (filter (fun r => negb (has_id id r))
                                    (users (store w))))
                         (issued w ++ [(DeleteUser [col "id"], [VNum id])])))
      as [-> _].
    cbn [store]. now rewrite Hgone.
Qed.

(** X3. With a hasher that verifies the text a digest was made of: after a
    successful [register], [authenticate] with the registered username and
    password succeeds and returns the very record [register] returned, which
    has no password field. *)
Theorem register_then_authenticate (r : registration) (salt : string)
        (w : world) :
  (forall data rounds s,
      bcrypt_compare data (bcrypt_hash data rounds s) = true) ->
  (forall u, In u (users (store w)) -> u_username u <> username r) ->
  exists o,
    fst (register r salt w) = Ok (Some o)
    /\ fst (authenticate (username r) (password r) (snd (register r salt w)))
       = Ok o
    /\ obj_get "password" o = None.
Proof.
  intros Hbc Hnew.
  pose proof (register_run text_le bcrypt_hash BCRYPT_WORK_FACTOR r salt w)
    as Hrun.
  cbv zeta in Hrun. rewrite (lookup_user_none _ _ Hnew) in Hrun.
  destruct Hrun as [Hout _].
  eexists. split; [exact Hout|]. split; [|reflexivity].
  destruct (authenticate_run text_le bcrypt_compare (username r) (password r)
                             (snd (register r salt w))) as [-> _].
  rewrite (lookup_after_register r salt w Hnew).
  cbn [u_password new_user]. now rewrite Hbc.
Qed.

(** X4. After a successful [register], a second [register] with the same
    username fails with [BadRequestError], whatever its other fields, and
    changes no table. *)
Theorem register_twice (r r2 : registration) (salt salt2 : string)
        (w : world) :
  (forall u, In u (users (store w)) -> u_username u <> username r) ->
  username r2 = username r ->
  fst (register r2 salt2 (snd (register r salt w)))
  = Throw (BadRequestError
             (String.append "Duplicate username: " (username r)))
  /\ store (snd (register r2 salt2 (snd (register r salt w))))
     = store (snd (register r salt w)).
Proof.
  intros Hnew Hsame.
  pose proof (register_run text_le bcrypt_hash BCRYPT_WORK_FACTOR r2 salt2
                           (snd (register r salt w))) as Hrun.
  cbv zeta in Hrun. rewrite Hsame in Hrun.
  now rewrite (lookup_after_register r salt w Hnew) in Hrun.
Qed.

(** X5. [update] with the documented fields and [remove] each keep stored
    usernames unique: if no two stored users share a username before the
    call, none do after it, whether the call succeeds or throws.  Each sends
    one statement, and neither assigns the username column nor adds a
    row. *)
Theorem unique_usernames_preserved (w : world) :
  NoDup (map u_username (users (store w))) ->
  (forall id data salt,
      (forall k, In k (obj_keys data) -> In k updatable) ->
      NoDup (map u_username (users (store (snd (update id data salt w))))))
  /\ (forall id,
         NoDup (map u_username (users (store (snd (remove id w)))))).
Proof.
  intros Hnd. split.
  - intros id data salt Hkeys. destruct data as [|kv data].
    + exact Hnd.
    + rewrite (update_run text_le bcrypt_hash BCRYPT_WORK_FACTOR id
                          (kv :: data) salt w) by (discriminate || exact Hkeys).
      cbn [snd store users with_users].
      rewrite update_rows_usernames; [exact Hnd|].
      apply username_not_assigned. now rewrite rehash_keys.
  - intros id. rewrite remove_run. cbn [snd store users with_users].
    now apply NoDup_map_filter.
Qed.

(** X6. The reads never write: [authenticate], [getAll] and [get] leave every
    table as it was.  [get] issues its three aggregation queries only when
    the user exists: four statements then, the lookup alone otherwise. *)
Theorem reads_leave_tables (w : world) :
  (forall name pw, store (snd (authenticate name pw w)) = store w)
  /\ store (snd (getAll w)) = store w
  /\ (forall name,
         store (snd (get name w)) = store w
         /\ List.length (issued (snd (get name w)))
            = (List.length (issued w)
               + match lookup_user name (store w) with
                 | Some _ => 4
                 | None => 1
                 end)%nat).
Proof.
  split; [|split].
  - intros name pw. apply authenticate_run.
  - apply getAll_run.
  - intros name. split; [apply get_run|].
    rewrite get_statements, length_app.
    destruct (lookup_user name (store w)); reflexivity.
Qed.

(** X7. On the rows with the given id, [update] stores what the map holds:
    firstName, lastName and email take the values given, and password takes
    the digest of the value given when that value is truthy, the value itself
    when it is not. *)
Theorem update_writes_present_fields
        (id : Z) (data : list (string * string)) (salt : string) (w : world) :
  data <> [] ->
  NoDup (obj_keys data) ->
  (forall k, In k (obj_keys data) -> In k updatable) ->
  forall i u,
    nth_error (users (store w)) i = Some u ->
    u_id u = id ->
    exists u',
      nth_error (users (store (snd (update id data salt w)))) i = Some u'
      /\ (forall v, In ("firstName", v) data -> u_first_name u' = v)
      /\ (forall v, In ("lastName", v) data -> u_last_name u' = v)
      /\ (forall v, In ("email", v) data -> u_email u' = v)
      /\ (forall v, In ("password", v) data ->
                    u_password u' = if js_truthy v then hash v salt else v).
Proof.
  intros Hne Hnd Hkeys i u Hu Hid.
  destruct (update_row_effect text_le bcrypt_hash BCRYPT_WORK_FACTOR
              id data salt w Hne Hnd Hkeys i u Hu)
    as (u' & H1 & _ & _ & _ & _ & _ & _ & _ & Hpres).
  exists u'. split; [exact H1|]. exact (Hpres Hid).
Qed.

(** X8. For an id some row has, [update] returns the row as it is after the
    write: its id, and for each of firstName, lastName and email the value
    given when the map holds the field and the stored value when it does
    not.  The record has exactly these four fields. *)
Theorem update_returns_new_values
        (id : Z) (data : list (string * string)) (salt : string) (w : world)
        (u : user_row) :
  data <> [] ->
  NoDup (obj_keys data) ->
  (forall k, In k (obj_keys data) -> In k updatable) ->
  lookup_id id (store w) = Some u ->
  exists o,
    fst (update id data salt w) = Ok o
    /\ obj_keys o = ["id"; "firstName"; "lastName"; "email"]
    /\ obj_get "id" o = Some (VNum id)
    /\ (forall v, In ("firstName", v) data ->
                  obj_get "firstName" o = Some (VStr v))
    /\ (~ In "firstName" (obj_keys data) ->
        obj_get "firstName" o = Some (VStr (u_first_name u)))
    /\ (forall v, In ("lastName", v) data ->
                  obj_get "lastName" o = Some (VStr v))
    /\ (~ In "lastName" (obj_keys data) ->
        obj_get "lastName" o = Some (VStr (u_last_name u)))
    /\ (forall v, In ("email", v) data -> obj_get "email" o = Some (VStr v))
    /\ (~ In "email" (obj_keys data) ->
        obj_get "email" o = Some (VStr (u_email u))).
Proof.
  intros Hne Hnd Hkeys Hu.
  pose proof (lookup_id_found _ _ _ Hu) as [Hin Hid].
  destruct (In_nth_error _ _ Hin) as [i Hi].
  destruct (update_row_effect text_le bcrypt_hash BCRYPT_WORK_FACTOR
              id data salt w Hne Hnd Hkeys i u Hi)
    as (u' & H1 & Hid' & _ & _ & Hf & Hl & He & _ & Hpres).
  destruct (Hpres Hid) as (Pf & Pl & Pe & _).
  rewrite (update_run text_le bcrypt_hash BCRYPT_WORK_FACTOR id data salt w
             Hne Hkeys) in H1 |- *.
  cbn [fst snd store users with_users] in H1 |- *.
  set (asg := assignments (rehash bcrypt_hash BCRYPT_WORK_FACTOR data salt))
    in *.
  rewrite update_rows_nth, Hi in H1. cbn [option_map] in H1.
  apply Z.eqb_eq in Hid. rewrite Hid in H1. apply Z.eqb_eq in Hid.
  inversion H1 as [E]. clear H1.
  unfold update_rows.
  rewrite (find_map_preserving (has_id id)
             (fun r => if Z.eqb (u_id r) id then apply_set asg r else r)).
  2:{ intros r. unfold has_id. destruct (Z.eqb_spec (u_id r) id) as [Hr|Hr].
      - rewrite apply_set_id. now apply Z.eqb_eq.
      - now apply Z.eqb_neq. }
  unfold lookup_id in Hu. rewrite Hu. cbn [option_map].
  apply Z.eqb_eq in Hid. rewrite Hid. apply Z.eqb_eq in Hid.
  rewrite E. eexists. split; [reflexivity|].
  split; [reflexivity|]. cbn.
  split; [now rewrite Hid', Hid|].
  split; [intros v Hv; now rewrite (Pf v Hv)|].
  split; [intros Hno; now rewrite (Hf Hno)|].
  split; [intros v Hv; now rewrite (Pl v Hv)|].
  split; [intros Hno; now rewrite (Hl Hno)|].
  split; [intros v Hv; now rewrite (Pe v Hv)|].
  intros Hno. now rewrite (He Hno).
Qed.

(** X9. [register] leaves the stored users in place, ahead of any row it
    adds, so [authenticate] on every other username answers after it as it
    did before. *)
Theorem register_keeps_other_logins (r : registration) (salt : string)
        (w : world) :
  (exists added,
      users (store (snd (register r salt w))) = users (store w) ++ added)
  /\ (forall name pw,
         name <> username r ->
         fst (authenticate name pw (snd (register r salt w)))
         = fst (authenticate name pw w)).
Proof.
  split.
  - destruct (register_store r salt w) as [->|[_ ->]].
    + exists []. now rewrite app_nil_r.
    + eexists. reflexivity.
  - intros name pw Hname.
    destruct (authenticate_run text_le bcrypt_compare name pw
                               (snd (register r salt w))) as [-> _].
    destruct (authenticate_run text_le bcrypt_compare name pw w) as [-> _].
    assert (E : lookup_user name (store (snd (register r salt w)))
                = lookup_user name (store w)).
    { unfold lookup_user.
      destruct (register_store r salt w) as [->|[_ ->]]; [reflexivity|].
      rewrite find_app_or.
      destruct (find (has_username name) (users (store w)));
        [reflexivity|].
      cbn. unfold has_username. cbn [u_username new_user].
      apply not_eq_sym, String.eqb_neq in Hname. now rewrite Hname. }
    now rewrite E.
Qed.

(** X10. Every row of [getAll] has the fields id, username, password,
    firstname, lastname and email: the first and last name sit under the
    lower-case labels, and [firstName] and [lastName] are undefined. *)
Theorem getAll_labels (w : world) (rows : list obj) :
  fst (getAll w) = Ok rows ->
  forall o,
    In o rows ->
    obj_keys o
    = ["id"; "username"; "password"; "firstname"; "lastname"; "email"]
    /\ js_get "firstName" o = VUndefined
    /\ js_get "lastName" o = VUndefined
    /\ (exists u, In u (users (store w))
                  /\ js_get "firstname" o = VStr (u_first_name u)
                  /\ js_get "lastname" o = VStr (u_last_name u)).
Proof.
  destruct (getAll_run text_le w) as [-> _].
  intros E o Ho. inversion E; subst rows.
  apply in_map_iff in Ho. destruct Ho as (u & <- & Hu).
  repeat split. exists u. split; [|split; reflexivity].
  eapply Permutation_in; [apply order_by_perm|exact Hu].
Qed.

(** X11. For an id within the range of the id column: [update] on an id
    no row has still issues its UPDATE statement; it then fails with
    [NotFoundError] and every table is as it was. *)
Theorem update_missing_id (id : Z) (data : list (string * string))
        (salt : string) (w : world) :
  int4 id ->
  data <> [] ->
  (forall k, In k (obj_keys data) -> In k updatable) ->
  (forall u, In u (users (store w)) -> u_id u <> id) ->
  fst (update id data salt w)
  = Throw (NotFoundError (String.append "No user: " (string_of_Z id)))
  /\ store (snd (update id data salt w)) = store w
  /\ List.length (issued (snd (update id data salt w)))
     = S (List.length (issued w)).
Proof.
  intros _ Hne Hkeys Hno.
  rewrite (update_run text_le bcrypt_hash BCRYPT_WORK_FACTOR id data salt w
             Hne Hkeys).
  cbn [fst snd store issued].
  rewrite (update_rows_no_match _ _ _ Hno), with_users_same.
  split; [|split; [reflexivity|]].
  - assert (E : find (has_id id) (users (store w)) = None).
    { apply find_none_iff. intros u Hu. apply Z.eqb_neq. now apply Hno. }
    now rewrite E.
  - rewrite length_app. cbn. lia.
Qed.

End Composition.

(** * The upload handler *)

(** ** Strings *)

Lemma js_remove_first_eq (p s : string) :
  js_remove_first p s =
  if String.prefix p s
  then string_drop (String.length p) s
  else match s with
       | EmptyString => EmptyString
       | String c s' => String c (js_remove_first p s')
       end.
Proof. destruct s; reflexivity. Qed.

Lemma prefix_split (p s : string) :
  String.prefix p s = true ->
  s = String.append p (string_drop (String.length p) s).
Proof.
  revert s. induction p as [|a p IH]; intros [|b s]; simpl;
    try reflexivity; try discriminate.
  destruct (ascii_dec a b) as [->|]; [|discriminate].
  intros H. f_equal. now apply IH.
Qed.

Lemma prefix_append (p rest : string) :
  String.prefix p (String.append p rest) = true.
Proof.
  induction p as [|a p IH]; simpl.
  - now destruct rest.
  - destruct (ascii_dec a a); [exact IH|contradiction].
Qed.

Lemma string_drop_append (p rest : string) :
  string_drop (String.length p) (String.append p rest) = rest.
Proof. induction p as [|a p IH]; simpl; [now destruct rest|exact IH]. Qed.

Lemma js_remove_first_prefix (p rest : string) :
  js_remove_first p (String.append p rest) = rest.
Proof.
  rewrite js_remove_first_eq, prefix_append. apply string_drop_append.
Qed.

Lemma occurs_tail (p s : string) (c : ascii) :
  String.prefix p (String c s) = false -> occurs p (String c s) ->
  occurs p s.
Proof.
  intros Hpre (pre & post & E). destruct pre as [|a pre].
  - simpl in E. rewrite E, prefix_append in Hpre. discriminate.
  - simpl in E. inversion E. now exists pre, post.
Qed.

Lemma js_remove_first_absent (p s : string) :
  ~ occurs p s -> js_remove_first p s = s.
Proof.
  induction s as [|c s IH]; intros Hno; rewrite js_remove_first_eq.
  - destruct (String.prefix p "") eqn:E; [|reflexivity].
    exfalso. apply Hno. exists "", (string_drop (String.length p) "").
    now apply prefix_split.
  - destruct (String.prefix p (String c s)) eqn:E.
    + exfalso. apply Hno.
      exists "", (string_drop (String.length p) (String c s)).
      now apply prefix_split.
    + f_equal. apply IH. intros (pre & post & Hs). apply Hno.
      exists (String c pre), post. simpl. now rewrite Hs.
Qed.

Lemma js_remove_first_occurs (p s : string) :
  occurs p s ->
  exists pre post,
    s = String.append pre (String.append p post)
    /\ js_remove_first p s = String.append pre post
    /\ (forall pre' post',
           s = String.append pre' (String.append p post') ->
           (String.length pre <= String.length pre')%nat).
Proof.
  induction s as [|c s IH]; intros Hocc; rewrite js_remove_first_eq.
  - destruct Hocc as (pre & post & E).
    destruct pre; [|discriminate]. destruct p; [|discriminate].
    exists "", "". repeat split. intros pre' post' _. simpl. lia.
  - destruct (String.prefix p (String c s)) eqn:E.
    + exists "", (string_drop (String.length p) (String c s)).
      split; [now apply prefix_split|]. split; [reflexivity|].
      intros pre' post' _. simpl. lia.
    + destruct (IH (occurs_tail _ _ _ E Hocc))
        as (pre & post & Hs & Hr & Hmin).
      exists (String c pre), post. simpl. rewrite Hr, <- Hs.
      split; [reflexivity|]. split; [reflexivity|].
      intros [|c' pre'] post' Hs'.
      * simpl in Hs'. rewrite Hs', prefix_append in E. discriminate.
      * simpl in Hs'. inversion Hs' as [[Hc Hrest]]. simpl.
        apply le_n_S. now apply (Hmin pre' post').
Qed.

(** ** Decimal text *)

Lemma string_of_uint_lacks (d : Decimal.uint) :
  lacks "_" (NilEmpty.string_of_uint d).
Proof.
  induction d; simpl; try (split; [discriminate|assumption]); exact I.
Qed.

Lemma string_of_Z_lacks (z : Z) : lacks "_" (string_of_Z z).
Proof.
  unfold string_of_Z, NilZero.string_of_int, NilZero.string_of_uint.
  destruct (Z.to_int z) as [d|d]; destruct d;
    repeat (simpl; split; try discriminate);
    try apply string_of_uint_lacks; exact I.
Qed.

Lemma string_of_Z_inj (a b : Z) : string_of_Z a = string_of_Z b -> a = b.
Proof.
  unfold string_of_Z. intros H.
  apply (f_equal NilZero.int_of_string) in H.
  assert (Hnz : forall z, Z.to_int z <> Decimal.Pos Decimal.Nil
                          /\ Z.to_int z <> Decimal.Neg Decimal.Nil).
  { intros [|q|q]; simpl; split; intros E; inversion E;
      now apply (Unsigned.to_uint_nonnil q). }
  rewrite !NilZero.isi in H by apply Hnz.
  inversion H. now apply DecimalZ.to_int_inj.
Qed.

Lemma append_separator_inj (a1 a2 b1 b2 : string) :
  lacks "_" a1 -> lacks "_" a2 ->
  String.append a1 (String "_" b1) = String.append a2 (String "_" b2) ->
  a1 = a2 /\ b1 = b2.
Proof.
  revert a2. induction a1 as [|c a1 IH]; intros [|c2 a2] H1 H2 E;
    simpl in *.
  - inversion E. auto.
  - inversion E. subst. destruct H2 as [H2 _]. contradiction.
  - inversion E. subst. destruct H1 as [H1 _]. contradiction.
  - inversion E. subst. destruct (IH a2) as [-> ->]; tauto.
Qed.

Section UploadProperties.
Variable upload_done : upload_params -> option string.
Variable request_url : option string -> string -> string + string.
Variable undefined_read_message : string.
Variable bucketName : option string.
Variable BUCKET_URL : option string.

Local Abbreviation upload_image :=
  (upload_image upload_done request_url undefined_read_message bucketName
                BUCKET_URL).

(** X12. The upload handler always answers, with status 200 or 500.  It
    answers 200 exactly when the request carries a file, the upload resolves
    and the URL is formed.  A request without a file is answered 500 and
    starts no upload.  At most one upload is started, under the key made of
    the time stamp and the original file name, with the file's own bytes and
    content type. *)
Theorem upload_image_answers (req_file : option uploaded_file) (now : Z) :
  let out := upload_image req_file now in
  (status (fst out) = 200 \/ status (fst out) = 500)
  /\ (req_file = None ->
      fst out = upload_failure undefined_read_message /\ snd out = [])
  /\ (status (fst out) = 200 <->
      exists file url,
        req_file = Some file
        /\ upload_done (mkUploadParams bucketName (upload_key now file)
                          (buffer file) (mimetype file) "inline") = None
        /\ request_url bucketName (upload_key now file) = inl url)
  /\ (status (fst out) = 500 ->
      js_get "message" (body (fst out))
      = VStr "An error occurred while uploading the image")
  /\ (forall p, In p (snd out) ->
        snd out = [p]
        /\ exists file,
            req_file = Some file
            /\ p = mkUploadParams bucketName (upload_key now file)
                     (buffer file) (mimetype file) "inline").
Proof.
  unfold upload_image.
  destruct req_file as [file|]; cbn zeta.
  - destruct (upload_done _) as [m|] eqn:Eu;
      [|destruct (request_url _ _) as [url|m] eqn:Er]; cbn.
    + split; [now right|]. split; [discriminate|].
      split; [split; [discriminate|]|].
      * intros (f & url & Hf & Hu & _). inversion Hf; subst f. congruence.
      * split; [reflexivity|]. intros p [<-|[]]. split; [reflexivity|].
        now exists file.
    + split; [now left|]. split; [discriminate|].
      split; [split; [intros _; now exists file, url|reflexivity]|].
      split; [discriminate|]. intros p [<-|[]]. split; [reflexivity|].
      now exists file.
    + split; [now right|]. split; [discriminate|].
      split; [split; [discriminate|]|].
      * intros (f & url & Hf & _ & Hr). inversion Hf; subst f. congruence.
      * split; [reflexivity|]. intros p [<-|[]]. split; [reflexivity|].
        now exists file.
  - cbn. split; [now right|]. split; [auto|].
    split; [split; [discriminate|]|].
    + intros (f & url & Hf & _). discriminate.
    + split; [reflexivity|]. intros p [].
Qed.

(** X13. The key of an uploaded object determines both its time stamp and
    its original file name: two uploads get the same key only when they
    agree on both. *)
Theorem upload_key_injective (now1 now2 : Z) (file1 file2 : uploaded_file) :
  upload_key now1 file1 = upload_key now2 file2 ->
  now1 = now2 /\ originalname file1 = originalname file2.
Proof.
  unfold upload_key. simpl. intros E.
  apply append_separator_inj in E; try apply string_of_Z_lacks.
  destruct E as [E1 E2]. split; [now apply string_of_Z_inj|exact E2].
Qed.

(** X14. On success the handler answers the URL with the first occurrence
    of the configured base URL taken out: a URL that starts with the base is
    answered as what follows it, a URL in which the base does not occur is
    answered whole, and otherwise the URL is cut around the occurrence that
    starts earliest and the two sides are joined. *)
Theorem upload_image_url (file : uploaded_file) (now : Z) (url : string) :
  upload_done (mkUploadParams bucketName (upload_key now file)
                 (buffer file) (mimetype file) "inline") = None ->
  request_url bucketName (upload_key now file) = inl url ->
  exists shown,
    fst (upload_image (Some file) now)
    = mkResponse 200 [("message", VStr "Image uploaded successfully");
                      ("imageUrl", VStr shown)]
    /\ (forall path,
           url = String.append (env_text BUCKET_URL) path -> shown = path)
    /\ (~ occurs (env_text BUCKET_URL) url -> shown = url)
    /\ (occurs (env_text BUCKET_URL) url ->
        exists pre post,
          url = String.append pre (String.append (env_text BUCKET_URL) post)
          /\ shown = String.append pre post
          /\ (forall pre' post',
                 url = String.append pre'
                         (String.append (env_text BUCKET_URL) post') ->
                 (String.length pre <= String.length pre')%nat)).
Proof.
  intros Hu Hr. unfold upload_image. cbn zeta.
  rewrite Hu, Hr. eexists. split; [reflexivity|].
  split; [|split].
  - intros path ->. apply js_remove_first_prefix.
  - apply js_remove_first_absent.
  - apply js_remove_first_occurs.
Qed.

End UploadProperties.

(** ** The further properties on the sample store *)

Lemma remove_spec_witness :
  (fst (remove String.leb 7 sample_world)
   = Throw (NotFoundError "No user: 7")
   /\ store (snd (remove String.leb 7 sample_world)) = sample_tables)
  /\ fst (remove String.leb 2 sample_world) = Ok tt
  /\ users (store (snd (remove String.leb 2 sample_world))) = [alice].
Proof.
  assert (R7 : int4 7) by (unfold int4; lia).
  assert (R2 : int4 2) by (unfold int4; lia).
  split.
  - destruct (remove_spec String.leb 7 sample_world R7) as [H _].
    apply H. intros u [<-|[<-|[]]]; discriminate.
  - destruct (remove_spec String.leb 2 sample_world R2) as [_ H].
    destruct H as (H1 & H2 & _).
    + exists bob. split; [simpl; tauto|reflexivity].
    + split; [exact H1|]. rewrite H2. reflexivity.
Defined.

Lemma sample_usernames_unique :
  NoDup (map u_username (users (store sample_world))).
Proof.
  simpl. repeat constructor; simpl; intros H;
    repeat (destruct H as [H|H]; try discriminate H); exact H.
Defined.

Lemma remove_then_get_witness :
  fst (get String.leb "bob" (snd (remove String.leb 2 sample_world)))
  = Throw (NotFoundError "User not found: bob")
  /\ fst (authenticate String.leb sample_compare "bob" "newpw"
                       (snd (remove String.leb 2 sample_world)))
     = Throw (UnauthorizedError "Invalid username/password").
Proof.
  destruct (remove_then_get String.leb sample_compare 2 bob sample_world
                            sample_usernames_unique eq_refl)
    as (_ & H1 & H2).
  split; [exact H1|apply H2].
Defined.

Lemma sample_usernames_free (name : string) :
  name <> "bob" -> name <> "alice" ->
  forall u, In u (users (store sample_world)) -> u_username u <> name.
Proof.
  intros Hb Ha u [<-|[<-|[]]]; simpl; congruence.
Defined.

Lemma register_then_authenticate_witness :
  exists o,
    fst (register String.leb sample_hash sample_rounds carol "s3"
                  sample_world) = Ok (Some o)
    /\ fst (authenticate String.leb sample_compare "carol" "pa55"
              (snd (register String.leb sample_hash sample_rounds carol "s3"
                             sample_world))) = Ok o.
Proof.
  assert (Hbc : forall data rounds s,
             sample_compare data (sample_hash data rounds s) = true)
    by (intros; rewrite sample_compare_hash; apply String.eqb_refl).
  assert (Hnew : forall u, In u (users (store sample_world)) ->
                           u_username u <> username carol)
    by (apply sample_usernames_free; discriminate).
  destruct (register_then_authenticate String.leb sample_hash sample_compare
              sample_rounds carol "s3" sample_world Hbc Hnew)
    as (o & H1 & H2 & _).
  exists o. split; [exact H1|exact H2].
Defined.

Lemma register_twice_witness :
  fst (register String.leb sample_hash sample_rounds
         (mkRegistration "carol" "other" "C" "D" "c@example.com") "s4"
         (snd (register String.leb sample_hash sample_rounds carol "s3"
                        sample_world)))
  = Throw (BadRequestError "Duplicate username: carol").
Proof.
  assert (Hnew : forall u, In u (users (store sample_world)) ->
                           u_username u <> username carol)
    by (apply sample_usernames_free; discriminate).
  apply (register_twice String.leb sample_hash sample_rounds carol
           (mkRegistration "carol" "other" "C" "D" "c@example.com")
           "s3" "s4" sample_world Hnew eq_refl).
Defined.

Lemma unique_usernames_preserved_witness :
  NoDup (map u_username
           (users (store (snd (update String.leb sample_hash sample_rounds
                                      1 [("email", "a@example.org")] "s4"
                                      sample_world)))))
  /\ NoDup (map u_username
              (users (store (snd (remove String.leb 1 sample_world))))).
Proof.
  destruct (unique_usernames_preserved String.leb sample_hash sample_rounds
              sample_world sample_usernames_unique) as (H1 & H2).
  split; [apply H1|apply H2].
  intros k [<-|[]]. simpl. tauto.
Defined.

Lemma update_writes_present_fields_witness :
  exists u',
    nth_error
      (users (store (snd (update String.leb sample_hash sample_rounds 1
                            [("lastName", "Ames"); ("password", "pw2")] "s4"
                            sample_world)))) 1 = Some u'
    /\ u_last_name u' = "Ames"
    /\ u_password u' = sample_hash "pw2" sample_rounds "s4".
Proof.
  assert (Hne : [("lastName", "Ames"); ("password", "pw2")] <> [])
    by discriminate.
  assert (Hnd : NoDup (obj_keys [("lastName", "Ames"); ("password", "pw2")])).
  { simpl. repeat constructor; simpl; intros H;
      repeat (destruct H as [H|H]; try discriminate H); exact H. }
  assert (Hk : forall k,
             In k (obj_keys [("lastName", "Ames"); ("password", "pw2")]) ->
             In k updatable)
    by (intros k [<-|[<-|[]]]; simpl; tauto).
  destruct (update_writes_present_fields String.leb sample_hash sample_rounds
              1 _ "s4" sample_world Hne Hnd Hk 1%nat alice eq_refl eq_refl)
    as (u' & H1 & _ & H2 & _ & H3).
  exists u'. split; [exact H1|]. split.
  - apply H2. simpl. tauto.
  - rewrite (H3 "pw2") by (simpl; tauto). reflexivity.
Defined.

Lemma update_returns_new_values_witness :
  exists o,
    fst (update String.leb sample_hash sample_rounds 1
                [("firstName", "Alicia")] "s4" sample_world) = Ok o
    /\ obj_get "firstName" o = Some (VStr "Alicia")
    /\ obj_get "lastName" o = Some (VStr "Adams")
    /\ obj_get "email" o = Some (VStr "alice@example.com").
Proof.
  assert (Hne : [("firstName", "Alicia")] <> []) by discriminate.
  assert (Hnd : NoDup (obj_keys [("firstName", "Alicia")]))
    by (repeat constructor; simpl; tauto).
  assert (Hk : forall k, In k (obj_keys [("firstName", "Alicia")]) ->
                         In k updatable)
    by (intros k [<-|[]]; simpl; tauto).
  destruct (update_returns_new_values String.leb sample_hash sample_rounds
              1 _ "s4" sample_world alice Hne Hnd Hk eq_refl)
    as (o & H1 & _ & _ & H2 & _ & _ & H3 & _ & H4).
  exists o. split; [exact H1|]. split; [|split].
  - apply H2. simpl. tauto.
  - apply H3. simpl. intros [E|[]]. discriminate E.
  - apply H4. simpl. intros [E|[]]. discriminate E.
Defined.

Lemma register_keeps_other_logins_witness :
  fst (authenticate String.leb sample_compare "alice" "secret"
         (snd (register String.leb sample_hash sample_rounds carol "s3"
                        sample_world)))
  = fst (authenticate String.leb sample_compare "alice" "secret"
                      sample_world).
Proof.
  destruct (register_keeps_other_logins String.leb sample_hash sample_compare
              sample_rounds carol "s3" sample_world) as [_ H].
  apply H. discriminate.
Defined.

Lemma getAll_labels_witness :
  obj_keys (raw_user alice)
  = ["id"; "username"; "password"; "firstname"; "lastname"; "email"]
  /\ js_get "firstName" (raw_user alice) = VUndefined
  /\ js_get "lastName" (raw_user alice) = VUndefined.
Proof.
  destruct (getAll_labels String.leb sample_world
              [raw_user alice; raw_user bob] eq_refl (raw_user alice)
              (or_introl eq_refl))
    as (H1 & H2 & H3 & _).
  split; [exact H1|split; [exact H2|exact H3]].
Defined.

Lemma update_missing_id_witness :
  fst (update String.leb sample_hash sample_rounds 7
              [("email", "x@example.com")] "s4" sample_world)
  = Throw (NotFoundError "No user: 7")
  /\ store (snd (update String.leb sample_hash sample_rounds 7
                        [("email", "x@example.com")] "s4" sample_world))
     = sample_tables.
Proof.
  assert (Hne : [("email", "x@example.com")] <> []) by discriminate.
  assert (Hk : forall k, In k (obj_keys [("email", "x@example.com")]) ->
                         In k updatable)
    by (intros k [<-|[]]; simpl; tauto).
  assert (Hno : forall u, In u (users (store sample_world)) -> u_id u <> 7)
    by (intros u [<-|[<-|[]]]; discriminate).
  assert (R7 : int4 7) by (unfold int4; lia).
  destruct (update_missing_id String.leb sample_hash sample_rounds 7 _ "s4"
              sample_world R7 Hne Hk Hno) as (H1 & H2 & _).
  split; [exact H1|exact H2].
Defined.

Lemma upload_image_answers_witness :
  fst (upload_image sample_upload_done sample_request_url
         "Cannot read properties of undefined" (Some "sharebnb")
         (Some "https://sharebnb.s3.amazonaws.com") None 1700000000000)
  = upload_failure "Cannot read properties of undefined"
  /\ status (fst (upload_image sample_upload_done sample_request_url
                    "Cannot read properties of undefined" (Some "sharebnb")
                    (Some "https://sharebnb.s3.amazonaws.com")
                    (Some sample_file) 1700000000000)) = 200.
Proof.
  split.
  - destruct (upload_image_answers sample_upload_done sample_request_url
                "Cannot read properties of undefined" (Some "sharebnb")
                (Some "https://sharebnb.s3.amazonaws.com") None
                1700000000000) as (_ & H & _).
    apply H. reflexivity.
  - destruct (upload_image_answers sample_upload_done sample_request_url
                "Cannot read properties of undefined" (Some "sharebnb")
                (Some "https://sharebnb.s3.amazonaws.com") (Some sample_file)
                1700000000000) as (_ & _ & H & _).
    apply H. eexists _, _. repeat split; reflexivity.
Defined.

Lemma upload_key_injective_witness :
  upload_key 1700000000000 sample_file = "1700000000000_pool.png"
  /\ 1700000000000 = 1700000000000
  /\ originalname sample_file = originalname sample_file.
Proof.
  split; [reflexivity|].
  apply (upload_key_injective 1700000000000 1700000000000 sample_file
                              sample_file eq_refl).
Defined.

Lemma upload_image_url_witness :
  exists shown,
    fst (upload_image sample_upload_done sample_request_url
           "Cannot read properties of undefined" (Some "sharebnb")
           (Some "https://sharebnb.s3.amazonaws.com") (Some sample_file)
           1700000000000)
    = mkResponse 200 [("message", VStr "Image uploaded successfully");
                      ("imageUrl", VStr shown)]
    /\ shown = "/1700000000000_pool.png".
Proof.
  destruct (upload_image_url sample_upload_done sample_request_url
              "Cannot read properties of undefined" (Some "sharebnb")
              (Some "https://sharebnb.s3.amazonaws.com") sample_file
              1700000000000
              "https://sharebnb.s3.amazonaws.com/1700000000000_pool.png"
              eq_refl eq_refl)
    as (shown & H1 & H2 & _).
  exists shown. split; [exact H1|]. apply H2. reflexivity.
Defined.

(** ** update, then get *)

Section UpdateThenGet.
Variable text_le : string -> string -> bool.
Variable bcrypt_hash : string -> nat -> string -> string.
Variable BCRYPT_WORK_FACTOR : nat.

Local Abbreviation get := (get text_le).
Local Abbreviation update :=
  (update text_le bcrypt_hash BCRYPT_WORK_FACTOR).

(** The row a lookup by username finds after [update]. *)
Lemma lookup_after_update (id : Z) (data : list (string * string))
      (salt name : string) (w : world) (u : user_row) :
  data <> [] ->
  NoDup (obj_keys data) ->
  (forall k, In k (obj_keys data) -> In k updatable) ->
  lookup_user name (store w) = Some u ->
  exists u',
    lookup_user name (store (snd (update id data salt w))) = Some u'
    /\ u_id u' = u_id u
    /\ u_username u' = name
    /\ (u_id u <> id -> u' = u)
    /\ (~ In "firstName" (obj_keys data) -> u_first_name u' = u_first_name u)
    /\ (~ In "lastName" (obj_keys data) -> u_last_name u' = u_last_name u)
    /\ (~ In "email" (obj_keys data) -> u_email u' = u_email u)
    /\ (u_id u = id ->
        (forall v, In ("firstName", v) data -> u_first_name u' = v)
        /\ (forall v, In ("lastName", v) data -> u_last_name u' = v)
        /\ (forall v, In ("email", v) data -> u_email u' = v)).
Proof.
  intros Hne Hnd Hkeys Hu.
  pose proof (lookup_user_found _ _ _ Hu) as [Hin Hname].
  destruct (In_nth_error _ _ Hin) as [i Hi].
  destruct (update_row_effect text_le bcrypt_hash BCRYPT_WORK_FACTOR
              id data salt w Hne Hnd Hkeys i u Hi)
    as (u' & H1 & Hid & Hun & Hsame & Hf & Hl & He & _ & Hpres).
  exists u'.
  assert (Hlook : lookup_user name (store (snd (update id data salt w)))
                  = Some u').
  { rewrite (update_run text_le bcrypt_hash BCRYPT_WORK_FACTOR id data salt w
               Hne Hkeys) in H1 |- *.
    cbn [snd store users with_users] in H1 |- *.
    set (asg := assignments (rehash bcrypt_hash BCRYPT_WORK_FACTOR data salt))
      in *.
    rewrite update_rows_nth, Hi in H1. cbn [option_map] in H1.
    inversion H1 as [E]. unfold lookup_user, with_users. cbn [users].
    unfold update_rows.
    rewrite (find_map_preserving (has_username name)
               (fun r => if Z.eqb (u_id r) id then apply_set asg r else r)).
    - unfold lookup_user in Hu. now rewrite Hu.
    - intros r. unfold has_username.
      destruct (Z.eqb (u_id r) id); [|reflexivity].
      rewrite apply_set_username; [reflexivity|].
      apply username_not_assigned. now rewrite rehash_keys. }
  split; [exact Hlook|]. split; [exact Hid|]. split; [congruence|].
  split; [exact Hsame|]. split; [exact Hf|]. split; [exact Hl|].
  split; [exact He|]. intros Hmatch.
  destruct (Hpres Hmatch) as (Pf & Pl & Pe & _). auto.
Qed.

(** X15. After [update(id, data)] on a non-empty map over the documented
    fields, [get] on the username of the user with that id returns the
    first name, last name and email the map gave, and the stored ones for
    the fields the map left out. *)
Theorem update_then_get (data : list (string * string))
        (salt name : string) (w : world) (u : user_row) :
  data <> [] ->
  NoDup (obj_keys data) ->
  (forall k, In k (obj_keys data) -> In k updatable) ->
  lookup_user name (store w) = Some u ->
  exists o,
    fst (get name (snd (update (u_id u) data salt w))) = Ok o
    /\ js_get "id" o = VNum (u_id u)
    /\ js_get "username" o = VStr name
    /\ (forall v, In ("firstName", v) data -> js_get "firstname" o = VStr v)
    /\ (~ In "firstName" (obj_keys data) ->
        js_get "firstname" o = VStr (u_first_name u))
    /\ (forall v, In ("lastName", v) data -> js_get "lastname" o = VStr v)
    /\ (~ In "lastName" (obj_keys data) ->
        js_get "lastname" o = VStr (u_last_name u))
    /\ (forall v, In ("email", v) data -> js_get "email" o = VStr v)
    /\ (~ In "email" (obj_keys data) -> js_get "email" o = VStr (u_email u)).
Proof.
  intros Hne Hnd Hkeys Hu.
  destruct (lookup_after_update (u_id u) data salt name w u Hne Hnd Hkeys Hu)
    as (u' & Hlook & Hid & Hname & _ & Hf & Hl & He & Hpres).
  destruct (Hpres eq_refl) as (Pf & Pl & Pe).
  destruct (get_run text_le name (snd (update (u_id u) data salt w)))
    as [Hget _].
  rewrite Hlook in Hget. eexists. split; [exact Hget|].
  unfold js_get. cbn.
  split; [now rewrite Hid|]. split; [now rewrite Hname|].
  split; [intros v Hv; now rewrite (Pf v Hv)|].
  split; [intros Hno; now rewrite (Hf Hno)|].
  split; [intros v Hv; now rewrite (Pl v Hv)|].
  split; [intros Hno; now rewrite (Hl Hno)|].
  split; [intros v Hv; now rewrite (Pe v Hv)|].
  intros Hno. now rewrite (He Hno).
Qed.

End UpdateThenGet.

Lemma update_then_get_witness :
  exists o,
    fst (get String.leb "alice"
           (snd (update String.leb sample_hash sample_rounds 1
                        [("firstName", "Alicia")] "s4" sample_world)))
    = Ok o
    /\ js_get "firstname" o = VStr "Alicia"
    /\ js_get "lastname" o = VStr "Adams".
Proof.
  assert (Hne : [("firstName", "Alicia")] <> []) by discriminate.
  assert (Hnd : NoDup (obj_keys [("firstName", "Alicia")]))
    by (repeat constructor; simpl; tauto).
  assert (Hk : forall k, In k (obj_keys [("firstName", "Alicia")]) ->
                         In k updatable)
    by (intros k [<-|[]]; simpl; tauto).
  destruct (update_then_get String.leb sample_hash sample_rounds
              [("firstName", "Alicia")] "s4" "alice" sample_world alice
              Hne Hnd Hk eq_refl)
    as (o & H1 & _ & _ & H2 & _ & _ & H3 & _).
  exists o. split; [exact H1|]. split.
  - apply H2. simpl. tauto.
  - apply H3. simpl. intros [E|[]]. discriminate E.
Defined.
